(** * Container process introspection: [Top] and [execPS]

    A shallow embedding of [libpod/container_top_linux.go].  Go strings are
    byte strings ([string], one [ascii] per byte), Go [int]s are [Z], slices
    are lists (the nil slice and the empty slice are both [[]]), and a Go
    [(value, error)] result is a pair whose second component is an
    [option error] ([None] is Go's [nil]).  Calls that leave the process
    (container state, psgo, the file system, namespaces, child processes) are
    nodes of a program tree, answered by a host and recorded in a trace. *)

From Stdlib Require Import ZArith List String Ascii Bool Lia.
From Stdlib Require Import DecimalString DecimalZ DecimalPos.
Import ListNotations.

Local Open Scope string_scope.
Local Open Scope list_scope.
Local Open Scope Z_scope.

(** ** The parts of Go's standard library the file uses *)

Module GoStrings.

(** [strings.Join(elems, sep)]. *)
Definition Join (elems : list string) (sep : string) : string :=
  String.concat sep elems.

(** [strings.Split(s, sep)] for a separator of one byte, the only way the
    source calls it (["," ] and the newline). *)
Fixpoint Split (s : string) (sep : ascii) : list string :=
  match s with
  | EmptyString => [EmptyString]
  | String ch rest =>
      if Ascii.eqb ch sep then EmptyString :: Split rest sep
      else match Split rest sep with
           | [] => [String ch EmptyString]
           | field :: fields => String ch field :: fields
           end
  end.

(** [strings.Index(s, substr)]: the byte offset of the first occurrence,
    [-1] when there is none. *)
Definition Index (s substr : string) : Z :=
  match String.index 0 substr s with
  | Some n => Z.of_nat n
  | None => -1
  end.

(** [strings.Contains(s, substr)] is [Index(s, substr) >= 0]. *)
Definition Contains (s substr : string) : bool := 0 <=? Index s substr.

(** The white space of [unicode.IsSpace], as it appears in a UTF-8 byte
    string: the byte length of the space rune [s] starts with, [0] when it
    starts with none.  U+0009..U+000D and U+0020 are one byte; U+0085 and
    U+00A0 are [C2 85] and [C2 A0]; U+1680 is [E1 9A 80]; U+2000..U+200A,
    U+2028, U+2029 and U+202F are [E2 80 xx]; U+205F is [E2 81 9F];
    U+3000 is [E3 80 80]. *)
Definition spaceWidth (s : string) : nat :=
  match s with
  | EmptyString => 0%nat
  | String b0 rest =>
      let n0 := N_of_ascii b0 in
      if ((9 <=? n0) && (n0 <=? 13) || (n0 =? 32))%N then 1%nat
      else match rest with
           | EmptyString => 0%nat
           | String b1 rest1 =>
               let n1 := N_of_ascii b1 in
               if (n0 =? 194)%N then
                 if ((n1 =? 133) || (n1 =? 160))%N then 2%nat else 0%nat
               else match rest1 with
                    | EmptyString => 0%nat
                    | String b2 _ =>
                        let n2 := N_of_ascii b2 in
                        if ((n0 =? 225) && (n1 =? 154) && (n2 =? 128))%N then 3%nat
                        else if ((n0 =? 226) && (n1 =? 128)
                                 && ((128 <=? n2) && (n2 <=? 138)
                                     || (n2 =? 168) || (n2 =? 169) || (n2 =? 175)))%N
                             then 3%nat
                        else if ((n0 =? 226) && (n1 =? 129) && (n2 =? 159))%N then 3%nat
                        else if ((n0 =? 227) && (n1 =? 128) && (n2 =? 128))%N then 3%nat
                        else 0%nat
                    end
           end
  end.

Definition flushField (cur : string) : list string :=
  match cur with
  | EmptyString => []
  | _ => [cur]
  end.

(** The scan of [strings.Fields]: [skip] counts the bytes of a multi-byte
    space still to pass, [cur] is the field being read. *)
Fixpoint fieldsFrom (s : string) (skip : nat) (cur : string) : list string :=
  match s with
  | EmptyString => flushField cur
  | String ch rest =>
      match skip with
      | S k => fieldsFrom rest k cur
      | O =>
          match spaceWidth s with
          | O => fieldsFrom rest 0 (cur ++ String ch EmptyString)%string
          | S k => flushField cur ++ fieldsFrom rest k EmptyString
          end
      end
  end.

(** [strings.Fields(s)]: the maximal runs of bytes between white space. *)
Definition Fields (s : string) : list string := fieldsFrom s 0 EmptyString.

(** [path.IsAbs(path)]: the path starts with a slash. *)
Definition IsAbs (path : string) : bool :=
  match path with
  | String ch _ => Ascii.eqb ch "/"%char
  | EmptyString => false
  end.

(** [strconv.Itoa(i)], which is also what the verb [%d] prints. *)
Definition Itoa (i : Z) : string := NilZero.string_of_int (Z.to_int i).

Definition nonEmpty (s : string) : bool := negb (String.eqb s EmptyString).

(** The byte [ch] occurs in [s]. *)
Fixpoint hasByte (ch : ascii) (s : string) : bool :=
  match s with
  | EmptyString => false
  | String c rest => Ascii.eqb c ch || hasByte ch rest
  end.

End GoStrings.
Export GoStrings.

(** ** Errors *)

(** The two package-level error values the file compares against:
    [define.ErrNoCgroups] and [psgo.ErrUnknownDescriptor]. *)
Inductive sentinel : Type :=
| ErrNoCgroups
| ErrUnknownDescriptor.

(** Go error values.  [ErrorString] is what [errors.New] and a [fmt.Errorf]
    without [%w] build (and any error of a library that wraps nothing);
    [WrapError prefix err] is [fmt.Errorf(prefix + "%w", err)], [prefix] being
    the formatted text before the verb; [ExitError code] is an
    [*exec.ExitError] whose [ExitCode()] is [code]. *)
Inductive error : Type :=
| Sentinel (s : sentinel)
| ErrorString (msg : string)
| WrapError (prefix : string) (err : error)
| ExitError (code : Z).

Definition sentinel_eqb (a b : sentinel) : bool :=
  match a, b with
  | ErrNoCgroups, ErrNoCgroups => true
  | ErrUnknownDescriptor, ErrUnknownDescriptor => true
  | _, _ => false
  end.

(** [errors.Is(err, target)] for a sentinel [target]: some error of the
    [Unwrap] chain of [err] is [target]. *)
Fixpoint errors_Is (err : error) (target : sentinel) : bool :=
  match err with
  | Sentinel s => sentinel_eqb s target
  | WrapError _ inner => errors_Is inner target
  | ErrorString _ | ExitError _ => false
  end.

(** [errors.As(err, &exitError)] followed by [exitError.ExitCode()]: the exit
    code of the first [*exec.ExitError] of the chain, if there is one. *)
Fixpoint errors_As_ExitError (err : error) : option Z :=
  match err with
  | ExitError code => Some code
  | WrapError _ inner => errors_As_ExitError inner
  | Sentinel _ | ErrorString _ => None
  end.

(** ** The container and the calls that leave the process *)

(** Modelled from the spec: the declaration of [define.ContainerStatus] is not
    among the sources.  The spec tells the lifecycle state "running" from
    every other state, which is all [Top] looks at. *)
Inductive ContainerStatus : Type :=
| ContainerStateRunning
| ContainerStateOther (n : nat).

Definition ContainerStatus_eqb (a b : ContainerStatus) : bool :=
  match a, b with
  | ContainerStateRunning, ContainerStateRunning => true
  | ContainerStateOther n, ContainerStateOther m => Nat.eqb n m
  | _, _ => false
  end.

(** The immutable part of a [*Container]: [c.ID()] and [c.config.NoCgroups].
    The mutable [c.state] is behind the calls [ContainerState] and
    [ContainerPID] below. *)
Record Container : Type := {
  ID : string;
  config_NoCgroups : bool
}.

(** Flag values of [golang.org/x/sys/unix] on linux. *)
Definition O_PATH : Z := 0x200000.
Definition O_CLOEXEC : Z := 0x80000.
Definition CLONE_NEWNS : Z := 0x20000.
Definition CLONE_NEWPID : Z := 0x20000000.

(** A call and the type of its answer.  [CmdRun] is [cmd.Run()] of the
    [exec.Cmd] built in [execPS]: its answer is the lines the reader goroutine
    took from the pipe, the content of [errBuf], and the error of [Run]. *)
Inductive Sys : Type -> Type :=
| ContainerState : Sys (ContainerStatus * option error)
| ContainerPID : Sys Z
| IsRootless : Sys bool
| JoinNamespaceAndProcessInfoWithOptions
    (pid : string) (descriptors : list string) (FillMappings : bool)
  : Sys (list (list string) * option error)
| OsPipe : Sys (option error)
| LookPath (file : string) : Sys (string * option error)
| UnixOpen (path : string) (mode : Z) (perm : Z) : Sys (Z * option error)
| CommandOutput (name : string) (arg : list string) : Sys (string * option error)
| OsOpen (name : string) : Sys (Z * option error)
| Unshare (flags : Z) : Sys (option error)
| Setns (fd : Z) (nstype : Z) : Sys (option error)
| CmdRun (Path : string) (Args : list string)
  : Sys (list string * string * option error).

(** A call together with its answer, as the trace of a run records it. *)
Inductive event : Type :=
| EvContainerState (status : ContainerStatus) (err : option error)
| EvContainerPID (pid : Z)
| EvIsRootless (rootless : bool)
| EvJoinNamespaceAndProcessInfo
    (pid : string) (descriptors : list string) (FillMappings : bool)
    (rows : list (list string)) (err : option error)
| EvOsPipe (err : option error)
| EvLookPath (file : string) (path : string) (err : option error)
| EvUnixOpen (path : string) (mode perm : Z) (fd : Z) (err : option error)
| EvCommandOutput (name : string) (arg : list string) (output : string)
    (err : option error)
| EvOsOpen (name : string) (fd : Z) (err : option error)
| EvUnshare (flags : Z) (err : option error)
| EvSetns (fd nstype : Z) (err : option error)
| EvCmdRun (Path : string) (Args : list string) (stdout : list string)
    (errBuf : string) (err : option error).

Definition log {X : Type} (call : Sys X) : X -> event :=
  match call in Sys T return T -> event with
  | ContainerState => fun r => EvContainerState (fst r) (snd r)
  | ContainerPID => fun r => EvContainerPID r
  | IsRootless => fun r => EvIsRootless r
  | JoinNamespaceAndProcessInfoWithOptions pid ds fill =>
      fun r => EvJoinNamespaceAndProcessInfo pid ds fill (fst r) (snd r)
  | OsPipe => fun r => EvOsPipe r
  | LookPath file => fun r => EvLookPath file (fst r) (snd r)
  | UnixOpen path mode perm => fun r => EvUnixOpen path mode perm (fst r) (snd r)
  | CommandOutput name arg => fun r => EvCommandOutput name arg (fst r) (snd r)
  | OsOpen name => fun r => EvOsOpen name (fst r) (snd r)
  | Unshare flags => fun r => EvUnshare flags r
  | Setns fd nstype => fun r => EvSetns fd nstype r
  | CmdRun path args => fun r => EvCmdRun path args (fst (fst r)) (snd (fst r)) (snd r)
  end.

(** A program: it returns, or makes a call and goes on with the answer. *)
Inductive prog (A : Type) : Type :=
| Ret (a : A)
| Vis {X : Type} (call : Sys X) (k : X -> prog A).

Arguments Ret {A} a.
Arguments Vis {A X} call k.

Fixpoint bind {A B : Type} (p : prog A) (f : A -> prog B) : prog B :=
  match p with
  | Ret a => f a
  | Vis call k => Vis call (fun x => bind (k x) f)
  end.

Definition call {X : Type} (c : Sys X) : prog X := Vis c Ret.

Declare Scope prog_scope.
Delimit Scope prog_scope with prog.
Notation "x <- p ;; q" := (bind p (fun x => q))
  (at level 61, p at next level, right associativity) : prog_scope.
Notation "' pat <- p ;; q" := (bind p (fun x => match x with pat => q end))
  (at level 61, pat pattern, p at next level, right associativity) : prog_scope.
Local Open Scope prog_scope.

(** A host answers every call from its state [W]. *)
Definition Host (W : Type) : Type := forall X : Type, Sys X -> W -> X * W.

(** Running a program on a host gives its result, the trace of the calls made
    and the host's final state. *)
Fixpoint exec {W A : Type} (h : Host W) (p : prog A) (w : W)
  : A * list event * W :=
  match p with
  | Ret a => (a, [], w)
  | Vis call k =>
      let (x, w1) := h _ call w in
      let '(a, tr, w2) := exec h (k x) w1 in
      (a, log call x :: tr, w2)
  end.

(** The result and the trace of a run. *)
Definition result {A W : Type} (r : A * list event * W) : A := fst (fst r).
Definition trace {A W : Type} (r : A * list event * W) : list event := snd (fst r).

(** ** [container_top_linux.go] *)

(** The loop idiom of [Top]: append to [acc] every string of [xs] that is not
    empty. *)
Definition appendNonEmpty (acc : list string) (xs : list string) : list string :=
  fold_left (fun acc s => if nonEmpty s then acc ++ [s] else acc) xs acc.

(** Lines 41-49 of [Top]: "Also support comma-separated input." *)
Definition psgoDescriptorsOf (descriptors : list string) : list string :=
  fold_left (fun psgoDescriptors d => appendNonEmpty psgoDescriptors (Split d ","%char))
            descriptors [].

(** The tab that joins the columns of a row. *)
Definition TAB : string := String (ascii_of_nat 9) EmptyString.

(** Lines 102-119. *)
Definition GetContainerPidInformation (descriptors : list string)
  : prog (list string * option error) :=
  statePID <- call ContainerPID ;;
  let pid := Itoa statePID in
  FillMappings <- call IsRootless ;;
  '(psgoOutput, err) <-
     call (JoinNamespaceAndProcessInfoWithOptions pid descriptors FillMappings) ;;
  match err with
  | Some err => Ret ([], Some err)
  | None =>
      Ret (fold_left (fun res out => res ++ [Join out TAB])
                     psgoOutput [],
           None)
  end.

(** The line feed, at which [strings.Split] cuts the [ldd] output. *)
Definition LF : ascii := ascii_of_nat 10.

(** [fmt.Sprintf("/proc/self/fd/%d", fd)]. *)
Definition fdPath (fd : Z) : string := ("/proc/self/fd/" ++ Itoa fd)%string.

(** Lines 163-187 of [execPS]: the loop over the lines of the [ldd] output,
    with the loop variables [preload] and [linkerPath].  The error is the one
    that makes [execPS] return from inside the loop. *)
Fixpoint execPS_lddLines (lines : list string) (preload : list string)
  (linkerPath : string) : prog (list string * string * option error) :=
  match lines with
  | [] => Ret (preload, linkerPath, None)
  | line :: lines =>
      let fields := Fields line in
      if (3 <? List.length fields)%nat then
        '(fd, err) <- call (UnixOpen (nth 2 fields EmptyString) O_PATH 0) ;;
        match err with
        | None => execPS_lddLines lines (preload ++ [fdPath fd]) linkerPath
        | Some _ => execPS_lddLines lines preload linkerPath
        end
      else if (List.length fields =? 2)%nat then
        if IsAbs (nth 0 fields EmptyString) then
          '(linkFD, err) <-
             call (UnixOpen (nth 0 fields EmptyString) (Z.lor O_PATH O_CLOEXEC) 0) ;;
          match err with
          | Some err => Ret (preload, linkerPath, Some err)
          | None => execPS_lddLines lines preload (fdPath linkFD)
          end
        else execPS_lddLines lines preload linkerPath
      else execPS_lddLines lines preload linkerPath
  end.

(** Lines 197-258: the goroutine that joins the namespaces of [pid] and runs
    the command, with what it sends on [errChan].  The first component is
    [stdout] as the reader goroutine of lines 136-141 has filled it: nothing
    before the child runs.  [args] holds at least the path of ps, so
    [args[0]] exists. *)
Definition execPS_func2 (pid : Z) (args : list string)
  : prog (list string * option error) :=
  '(mntFD, err) <- call (OsOpen ("/proc/" ++ Itoa pid ++ "/ns/mnt")%string) ;;
  match err with
  | Some err => Ret ([], Some err)
  | None =>
  '(pidFD, err) <- call (OsOpen ("/proc/" ++ Itoa pid ++ "/ns/pid")%string) ;;
  match err with
  | Some err => Ret ([], Some err)
  | None =>
  err <- call (Unshare CLONE_NEWNS) ;;
  match err with
  | Some err => Ret ([], Some (WrapError "unshare NEWNS: " err))
  | None =>
  err <- call (Setns mntFD CLONE_NEWNS) ;;
  match err with
  | Some err => Ret ([], Some (WrapError "setns NEWNS: " err))
  | None =>
  err <- call (Setns pidFD CLONE_NEWPID) ;;
  match err with
  | Some err => Ret ([], Some (WrapError "setns NEWPID: " err))
  | None =>
  let path := hd EmptyString args in
  let args := "ps" :: tl args in
  '(stdout, errBuf, err) <- call (CmdRun path args) ;;
  match err with
  | None => Ret (stdout, None)
  | Some err =>
      match errors_As_ExitError err with
      | Some exitCode =>
          if (0 <? String.length errBuf)%nat then
            Ret (stdout,
                 Some (ErrorString ("ps failed with exit code " ++ Itoa exitCode
                                    ++ ": " ++ errBuf)%string))
          else
            Ret (stdout, Some (WrapError "could not execute ps in the container: " err))
      | None =>
          Ret (stdout, Some (WrapError "could not execute ps in the container: " err))
      end
  end end end end end end.

(** Lines 127-263.  The reader goroutine of lines 136-141 makes no call of
    its own: what it has put in [stdout] when the function returns is part of
    the answer of [CmdRun].  The deferred [Close] calls and
    [runtime.LockOSThread] are left out: no result depends on them. *)
Definition execPS (psArgs : list string) : prog (list string * option error) :=
  err <- call OsPipe ;;
  match err with
  | Some err => Ret ([], Some err)
  | None =>
  '(psPath, err) <- call (LookPath "ps") ;;
  match err with
  | Some err => Ret ([], Some err)
  | None =>
  '(psFD, err) <- call (UnixOpen psPath O_PATH 0) ;;
  match err with
  | Some err => Ret ([], Some err)
  | None =>
  let psPath := fdPath psFD in
  let args := psPath :: psArgs in
  '(output, err) <- call (CommandOutput "ldd" [psPath]) ;;
  '(args, err) <-
     match err with
     | None =>
         '(preload, linkerPath, err) <-
            execPS_lddLines (Split output LF) [] EmptyString ;;
         Ret ([linkerPath; "--argv0"; "ps"; "--preload"; Join preload " "] ++ args,
              err)
     | Some _ => Ret (args, None)
     end ;;
  match err with
  | Some err => Ret ([], Some err)
  | None =>
  pid <- call ContainerPID ;;
  execPS_func2 pid args
  end end end end.

(** Lines 81-89 of [Top]: "filter the ps command from the output". *)
Definition filterPS (descriptors : list string) (output : list string) : list string :=
  let cmd := Join descriptors " " in
  fold_left (fun filtered line =>
               if negb (Contains line cmd) then filtered ++ [line] else filtered)
            output [].

Section WithShlex.

(** [shlex.Split] of [github.com/google/shlex], a pure function of its
    argument that is no part of this repository. *)
Variable shlex_Split : string -> list string * option error.

(** What the fallback is given: every original descriptor tokenized, the
    tokens in order, the empty ones left out. *)
Definition shlexTokens (descriptors : list string) : list string :=
  filter nonEmpty (flat_map (fun d => fst (shlex_Split d)) descriptors).

(** Lines 62-74 of [Top]: "the descriptors to ps(1) must be shlexed". *)
Fixpoint psDescriptorsFrom (descriptors : list string) (psDescriptors : list string)
  : list string * option error :=
  match descriptors with
  | [] => (psDescriptors, None)
  | d :: descriptors =>
      let '(shSplit, err) := shlex_Split d in
      match err with
      | Some err => ([], Some (WrapError "parsing ps args: " err))
      | None => psDescriptorsFrom descriptors (appendNonEmpty psDescriptors shSplit)
      end
  end.

(** Lines 28-92. *)
Definition Top (c : Container) (descriptors : list string)
  : prog (list string * option error) :=
  if config_NoCgroups c then
    Ret ([], Some (WrapError ("cannot run top on container " ++ ID c
                              ++ " as it did not create a cgroup: ")%string
                             (Sentinel ErrNoCgroups)))
  else
  '(conStat, err) <- call ContainerState ;;
  match err with
  | Some err =>
      Ret ([], Some (WrapError ("unable to look up state for " ++ ID c ++ ": ")%string err))
  | None =>
  if negb (ContainerStatus_eqb conStat ContainerStateRunning) then
    Ret ([], Some (ErrorString "top can only be used on running containers"))
  else
  let psgoDescriptors := psgoDescriptorsOf descriptors in
  '(output, psgoErr) <- GetContainerPidInformation psgoDescriptors ;;
  match psgoErr with
  | None => Ret (output, None)
  | Some psgoErr =>
  if negb (errors_Is psgoErr ErrUnknownDescriptor) then Ret ([], Some psgoErr)
  else
  let '(psDescriptors, err) := psDescriptorsFrom descriptors [] in
  match err with
  | Some err => Ret ([], Some err)
  | None =>
  '(output, err) <- execPS psDescriptors ;;
  match err with
  | Some err => Ret ([], Some (WrapError "executing ps(1) in the container: " err))
  | None => Ret (filterPS descriptors output, None)
  end end end end.

End WithShlex.

(** ** What a trace says about a run *)

(** The trace after its first [exec.Command(...).Output()], the [ldd] call. *)
Fixpoint afterLdd (tr : list event) : list event :=
  match tr with
  | [] => []
  | EvCommandOutput _ _ _ _ :: rest => rest
  | _ :: rest => afterLdd rest
  end.

(** The [unix.Open] calls made with exactly the flags [mode]: path asked
    for, descriptor and error answered. *)
Definition opensWith (mode : Z) (tr : list event)
  : list (string * Z * option error) :=
  flat_map (fun ev =>
              match ev with
              | EvUnixOpen path m _ fd err =>
                  if m =? mode then [(path, fd, err)] else []
              | _ => []
              end) tr.

(** Shared libraries are opened with [O_PATH], the linker with
    [O_PATH|O_CLOEXEC]. *)
Definition libOpens (tr : list event) := opensWith O_PATH tr.
Definition linkerOpens (tr : list event) := opensWith (Z.lor O_PATH O_CLOEXEC) tr.

Definition openPath (o : string * Z * option error) : string := fst (fst o).

(** The descriptors of the opens that succeeded. *)
Definition okFDs (opens : list (string * Z * option error)) : list Z :=
  flat_map (fun o => match snd o with None => [snd (fst o)] | Some _ => [] end) opens.

(** The errors of the opens that failed. *)
Definition openErrors (opens : list (string * Z * option error)) : list error :=
  flat_map (fun o => match snd o with None => [] | Some e => [e] end) opens.

(** The library paths an [ldd] output reports: the third field of every line
    of more than three fields. *)
Definition reportedLibs (lines : list string) : list string :=
  flat_map (fun line =>
              let fields := Fields line in
              if (3 <? List.length fields)%nat then [nth 2 fields EmptyString] else [])
           lines.

(** Some namespace step ([os.Open] of a namespace entry, [unshare], [setns])
    of the trace failed. *)
Definition nsFailed (tr : list event) : bool :=
  existsb (fun ev =>
             match ev with
             | EvOsOpen _ _ (Some _) | EvUnshare _ (Some _) | EvSetns _ _ (Some _) => true
             | _ => false
             end) tr.

Definition isUnixOpen (ev : event) : bool :=
  match ev with
  | EvUnixOpen _ _ _ _ _ => true
  | _ => false
  end.

(** The calls the goroutine of [execPS] makes. *)
Definition isGoroutineEvent (ev : event) : bool :=
  match ev with
  | EvOsOpen _ _ _ | EvUnshare _ _ | EvSetns _ _ _ | EvCmdRun _ _ _ _ _ => true
  | _ => false
  end.

(** The calls only [execPS] makes. *)
Definition isFallbackEvent (ev : event) : bool :=
  match ev with
  | EvOsPipe _ | EvLookPath _ _ _ | EvUnixOpen _ _ _ _ _
  | EvCommandOutput _ _ _ _ | EvOsOpen _ _ _ | EvUnshare _ _ | EvSetns _ _ _
  | EvCmdRun _ _ _ _ _ => true
  | _ => false
  end.

(** The error [execPS] makes of the outcome of [cmd.Run()], lines 248-256. *)
Definition runError (err : option error) (errBuf : string) : option error :=
  match err with
  | None => None
  | Some err =>
      match errors_As_ExitError err, errBuf with
      | Some exitCode, String _ _ =>
          Some (ErrorString ("ps failed with exit code " ++ Itoa exitCode
                             ++ ": " ++ errBuf)%string)
      | _, _ => Some (WrapError "could not execute ps in the container: " err)
      end
  end.

(** The path of the linker a trace ends up with: the alias of the last
    linker opened, empty when none was. *)
Definition linkerPathOf (tr : list event) : string :=
  last (map fdPath (okFDs (linkerOpens tr))) EmptyString.

(** The calls of [Top] up to the structured provider, on a running container. *)
Definition providerEvents (statePID : Z) (descriptors : list string)
  (FillMappings : bool) (rows : list (list string)) (err : option error)
  : list event :=
  [EvContainerState ContainerStateRunning None;
   EvContainerPID statePID;
   EvIsRootless FillMappings;
   EvJoinNamespaceAndProcessInfo (Itoa statePID) (psgoDescriptorsOf descriptors)
     FillMappings rows err].

(** The error of line 30. *)
Definition NoCgroupsError (c : Container) : error :=
  WrapError ("cannot run top on container " ++ ID c
             ++ " as it did not create a cgroup: ")%string (Sentinel ErrNoCgroups).

(** The error of line 38. *)
Definition NotRunningError : error :=
  ErrorString "top can only be used on running containers".

(** ** A tokenizer and a host to run the programs on *)

(** A model of [shlex.Split] of [github.com/google/shlex], written after that
    library's tokenizer (on input that is valid UTF-8).  The theorems hold for
    every tokenizer; this one instantiates them in the examples. *)
Module Shlex.

Inductive runeTokenClass : Type :=
| unknownRuneClass
| spaceRuneClass
| escapingQuoteRuneClass
| nonEscapingQuoteRuneClass
| escapeRuneClass
| commentRuneClass.

Definition ClassifyRune (ch : ascii) : runeTokenClass :=
  let n := N_of_ascii ch in
  if ((n =? 32) || (n =? 9) || (n =? 13) || (n =? 10))%N then spaceRuneClass
  else if (n =? 34)%N then escapingQuoteRuneClass
  else if (n =? 39)%N then nonEscapingQuoteRuneClass
  else if (n =? 92)%N then escapeRuneClass
  else if (n =? 35)%N then commentRuneClass
  else unknownRuneClass.

Inductive lexerState : Type :=
| startState
| inWordState
| escapingState
| escapingQuotedState
| quotingEscapingState
| quotingState
| commentState.

Definition push (value : string) (ch : ascii) : string :=
  (value ++ String ch EmptyString)%string.

(** The tokenizer's state machine run over the whole input: [value] is the
    token being read, [words] the word tokens already returned. *)
Fixpoint scanStream (input : string) (state : lexerState) (value : string)
  (words : list string) : list string * option error :=
  match input with
  | EmptyString =>
      match state with
      | startState | commentState => (words, None)
      | inWordState => (words ++ [value], None)
      | escapingState | escapingQuotedState =>
          (words, Some (ErrorString "EOF found after escape character"))
      | quotingEscapingState | quotingState =>
          (words, Some (ErrorString "EOF found when expecting closing quote"))
      end
  | String ch rest =>
      match state, ClassifyRune ch with
      | startState, spaceRuneClass => scanStream rest startState EmptyString words
      | startState, escapingQuoteRuneClass => scanStream rest quotingEscapingState EmptyString words
      | startState, nonEscapingQuoteRuneClass => scanStream rest quotingState EmptyString words
      | startState, escapeRuneClass => scanStream rest escapingState EmptyString words
      | startState, commentRuneClass => scanStream rest commentState EmptyString words
      | startState, unknownRuneClass => scanStream rest inWordState (push EmptyString ch) words
      | inWordState, spaceRuneClass => scanStream rest startState EmptyString (words ++ [value])
      | inWordState, escapingQuoteRuneClass => scanStream rest quotingEscapingState value words
      | inWordState, nonEscapingQuoteRuneClass => scanStream rest quotingState value words
      | inWordState, escapeRuneClass => scanStream rest escapingState value words
      | inWordState, _ => scanStream rest inWordState (push value ch) words
      | escapingState, _ => scanStream rest inWordState (push value ch) words
      | escapingQuotedState, _ => scanStream rest quotingEscapingState (push value ch) words
      | quotingEscapingState, escapingQuoteRuneClass => scanStream rest inWordState value words
      | quotingEscapingState, escapeRuneClass => scanStream rest escapingQuotedState value words
      | quotingEscapingState, _ => scanStream rest quotingEscapingState (push value ch) words
      | quotingState, nonEscapingQuoteRuneClass => scanStream rest inWordState value words
      | quotingState, _ => scanStream rest quotingState (push value ch) words
      | commentState, spaceRuneClass =>
          if (N_of_ascii ch =? 10)%N then scanStream rest startState EmptyString words
          else scanStream rest commentState (push value ch) words
      | commentState, _ => scanStream rest commentState (push value ch) words
      end
  end.

Definition Split (s : string) : list string * option error :=
  scanStream s startState EmptyString [].

End Shlex.

(** A host described by a table: the state of the container, what psgo
    answers, the files that exist, what [ldd] prints and what the child
    process does.  Its state is the next free descriptor number. *)
Record Machine : Type := {
  m_state : ContainerStatus * option error;
  m_pid : Z;
  m_rootless : bool;
  m_psgo : list string -> list (list string) * option error;
  m_files : list string;
  m_ldd : string * option error;
  m_run : string -> list string -> list string * string * option error
}.

Definition ENOENT : error := ErrorString "no such file or directory".

Definition openOn (m : Machine) (path : string) (next : Z)
  : (Z * option error) * Z :=
  if existsb (String.eqb path) (m_files m) then ((next, None), next + 1)
  else ((-1, Some ENOENT), next).

Definition machine (m : Machine) : Host Z :=
  fun X call =>
    match call in Sys T return Z -> T * Z with
    | ContainerState => fun next => (m_state m, next)
    | ContainerPID => fun next => (m_pid m, next)
    | IsRootless => fun next => (m_rootless m, next)
    | JoinNamespaceAndProcessInfoWithOptions _ descriptors _ =>
        fun next => (m_psgo m descriptors, next)
    | OsPipe => fun next => (None, next + 2)
    | LookPath file =>
        fun next =>
          let path := ("/usr/bin/" ++ file)%string in
          if existsb (String.eqb path) (m_files m) then ((path, None), next)
          else ((EmptyString, Some (ErrorString "executable file not found in $PATH")), next)
    | UnixOpen path _ _ => openOn m path
    | CommandOutput _ _ => fun next => (m_ldd m, next)
    | OsOpen _ => fun next => ((next, None), next + 1)
    | Unshare _ => fun next => (None, next)
    | Setns _ _ => fun next => (None, next)
    | CmdRun path args => fun next => (m_run m path args, next)
    end.


(** Variants of a machine. *)
Definition withState (st : ContainerStatus * option error) (m : Machine) : Machine :=
  {| m_state := st; m_pid := m_pid m; m_rootless := m_rootless m;
     m_psgo := m_psgo m; m_files := m_files m; m_ldd := m_ldd m; m_run := m_run m |}.

Definition withPsgo (psgo : list string -> list (list string) * option error)
  (m : Machine) : Machine :=
  {| m_state := m_state m; m_pid := m_pid m; m_rootless := m_rootless m;
     m_psgo := psgo; m_files := m_files m; m_ldd := m_ldd m; m_run := m_run m |}.

Definition withFiles (files : list string) (m : Machine) : Machine :=
  {| m_state := m_state m; m_pid := m_pid m; m_rootless := m_rootless m;
     m_psgo := m_psgo m; m_files := files; m_ldd := m_ldd m; m_run := m_run m |}.

Definition withLdd (ldd : string * option error) (m : Machine) : Machine :=
  {| m_state := m_state m; m_pid := m_pid m; m_rootless := m_rootless m;
     m_psgo := m_psgo m; m_files := m_files m; m_ldd := ldd; m_run := m_run m |}.

Definition withRun (run : string -> list string -> list string * string * option error)
  (m : Machine) : Machine :=
  {| m_state := m_state m; m_pid := m_pid m; m_rootless := m_rootless m;
     m_psgo := m_psgo m; m_files := m_files m; m_ldd := m_ldd m; m_run := run |}.

Definition NL : string := String LF EmptyString.

(** What [ldd] prints for a ps linked against three libraries. *)
Definition lddOutput : string :=
  (TAB ++ "linux-vdso.so.1 (0x00007ffc)" ++ NL ++
   TAB ++ "libprocps.so.8 => /lib64/libprocps.so.8 (0x00007f01)" ++ NL ++
   TAB ++ "libsystemd.so.0 => /lib64/libsystemd.so.0 (0x00007f02)" ++ NL ++
   TAB ++ "libc.so.6 => /lib64/libc.so.6 (0x00007f03)" ++ NL ++
   TAB ++ "/lib64/ld-linux-x86-64.so.2 (0x00007f04)" ++ NL)%string.

(** psgo's answer to a descriptor it does not know. *)
Definition unknownDescriptor : error :=
  WrapError "time: " (Sentinel ErrUnknownDescriptor).

Definition EACCES : error := ErrorString "permission denied".

Definition psOutput : list string :=
  ["    TIME COMMAND"; "00:00:00 sleep"; "00:00:00 ps time comm"].

(** A running container whose psgo knows no descriptor, on a host where ps
    is dynamically linked and one of its libraries, libsystemd, cannot be
    opened. *)
Definition hostFallback : Machine := {|
  m_state := (ContainerStateRunning, None);
  m_pid := 4242;
  m_rootless := false;
  m_psgo := fun _ => ([], Some unknownDescriptor);
  m_files := ["/usr/bin/ps"; "/lib64/libprocps.so.8"; "/lib64/libc.so.6";
              "/lib64/ld-linux-x86-64.so.2"];
  m_ldd := (lddOutput, None);
  m_run := fun _ _ => (psOutput, EmptyString, None)
|}.

(** The same host with the container stopped; with psgo failing for another
    reason; without [ldd]; without the linker; with a ps that exits with
    status 1 and a message; with a ps killed by a signal. *)
Definition hostStopped : Machine := withState (ContainerStateOther 4, None) hostFallback.
Definition hostProviderFails : Machine := withPsgo (fun _ => ([], Some EACCES)) hostFallback.
Definition hostNoLdd : Machine :=
  withLdd (EmptyString, Some (ErrorString "exec: ldd: executable file not found in $PATH"))
          hostFallback.
Definition hostNoLinker : Machine :=
  withFiles ["/usr/bin/ps"; "/lib64/libprocps.so.8"; "/lib64/libc.so.6"] hostFallback.
Definition hostPsFails : Machine :=
  withRun (fun _ _ => ([], "error: garbage option", Some (ExitError 1))) hostFallback.
Definition hostPsKilled : Machine :=
  withRun (fun _ _ => ([], EmptyString, Some (ExitError (-1)))) hostFallback.

Definition ctr : Container := {| ID := "c0ffee"; config_NoCgroups := false |}.
Definition ctrNoCgroups : Container := {| ID := "c0ffee"; config_NoCgroups := true |}.

Definition quotedDescriptors : list string := ["-o 'time comm'"; "pid,args"].
Definition brokenDescriptors : list string := ["-o"; "'time comm"].
Definition timeComm : list string := ["time comm"].

Definition fallbackRun :=
  exec (machine hostFallback) (Top Shlex.Split ctr quotedDescriptors) 3.
Definition brokenRun :=
  exec (machine hostFallback) (Top Shlex.Split ctr brokenDescriptors) 3.
Definition timeCommRun :=
  exec (machine hostFallback) (Top Shlex.Split ctr timeComm) 3.
Definition providerFailsRun :=
  exec (machine hostProviderFails) (Top Shlex.Split ctr ["pid"]) 3.
Definition execRun := exec (machine hostFallback) (execPS ["time"; "comm"]) 3.
Definition noLddRun := exec (machine hostNoLdd) (execPS ["time"; "comm"]) 3.
Definition noLinkerRun := exec (machine hostNoLinker) (execPS ["time"; "comm"]) 3.
Definition psFailsRun := exec (machine hostPsFails) (execPS ["time"; "comm"]) 3.
Definition psKilledRun := exec (machine hostPsKilled) (execPS ["time"; "comm"]) 3.

(** The argument vector of the command in [execRun]. *)
Definition dynamicArgs : list string :=
  ["ps"; "--argv0"; "ps"; "--preload"; "/proc/self/fd/6 /proc/self/fd/7";
   "/proc/self/fd/5"; "time"; "comm"].

(** ** More to say about traces *)

Definition isCmdRun (ev : event) : bool :=
  match ev with
  | EvCmdRun _ _ _ _ _ => true
  | _ => false
  end.

Definition isLddEvent (ev : event) : bool :=
  match ev with
  | EvCommandOutput _ _ _ _ => true
  | _ => false
  end.

Definition isProviderEvent (ev : event) : bool :=
  match ev with
  | EvJoinNamespaceAndProcessInfo _ _ _ _ _ => true
  | _ => false
  end.

(** How many events of a trace satisfy [p]. *)
Definition countEvents (p : event -> bool) (tr : list event) : nat :=
  List.length (filter p tr).

(** The linker paths an [ldd] output reports: the first field of every line
    of exactly two fields whose first field is an absolute path. *)
Definition reportedLinkers (lines : list string) : list string :=
  flat_map (fun line =>
              let fields := Fields line in
              if (3 <? List.length fields)%nat then []
              else if (List.length fields =? 2)%nat then
                     if IsAbs (nth 0 fields EmptyString)
                     then [nth 0 fields EmptyString] else []
                   else [])
           lines.

(** What the goroutine of [execPS] sends on [errChan] when the namespace step
    [ev] has failed (lines 206-234); [None] for a step that succeeded and for
    any other event. *)
Definition nsStepError (ev : event) : option error :=
  match ev with
  | EvOsOpen _ _ (Some e) => Some e
  | EvUnshare _ (Some e) => Some (WrapError "unshare NEWNS: " e)
  | EvSetns _ nstype (Some e) =>
      if nstype =? CLONE_NEWNS then Some (WrapError "setns NEWNS: " e)
      else Some (WrapError "setns NEWPID: " e)
  | _ => None
  end.

(** The five namespace steps of the goroutine of [execPS], all successful, on
    the namespaces of [pid]. *)
Definition nsJoined (pid mntFD pidFD : Z) : list event :=
  [EvOsOpen ("/proc/" ++ Itoa pid ++ "/ns/mnt")%string mntFD None;
   EvOsOpen ("/proc/" ++ Itoa pid ++ "/ns/pid")%string pidFD None;
   EvUnshare CLONE_NEWNS None;
   EvSetns mntFD CLONE_NEWNS None;
   EvSetns pidFD CLONE_NEWPID None].

Definition EPERM : error := ErrorString "operation not permitted".

(** A machine on which [unshare] is not permitted. *)
Definition machineNoUnshare (m : Machine) : Host Z :=
  fun X call =>
    match call in Sys T return Z -> T * Z with
    | Unshare _ => fun next => (Some EPERM, next)
    | other => machine m _ other
    end.

Definition hostNoPs : Machine := withFiles [] hostFallback.
Definition hostStateFails : Machine :=
  withState (ContainerStateOther 0, Some (ErrorString "no such container")) hostFallback.
Definition psgoRows : list (list string) := [["PID"; "COMMAND"]; ["1"; "sleep"]].
Definition hostRows : Machine := withPsgo (fun _ => (psgoRows, None)) hostFallback.

(** ** [pkg/libartifact/artifact.go] *)

(** A call that returns [a], or a run-time panic. *)
Inductive outcome (A : Type) : Type :=
| Returns (a : A)
| Panics.

Arguments Returns {A} a.
Arguments Panics {A}.

(** A Go [map[string]string] as the list of its entries, the nil map being
    the empty list; [mapGet m key] is the comma-ok form [val, ok := m[key]]. *)
Fixpoint mapGet (m : list (string * string)) (key : string) : option string :=
  match m with
  | [] => None
  | (k, v) :: rest => if String.eqb k key then Some v else mapGet rest key
  end.

(** An [int64] result, wrapped around as Go does on overflow. *)
Definition wrap64 (z : Z) : Z := (z + 2 ^ 63) mod 2 ^ 64 - 2 ^ 63.

Fixpoint sumZ (l : list Z) : Z :=
  match l with
  | [] => 0
  | x :: rest => x + sumZ rest
  end.

Module Libartifact.

(** The fields the file reads of the types it imports: a descriptor's [Size]
    and [Annotations], a manifest's [Layers], a list result's
    [ManifestDescriptor]. *)
Record Descriptor : Type := {
  Size : Z;
  Annotations : list (string * string)
}.

Record OCI1 : Type := {
  Layers : list Descriptor
}.

Record ListResult : Type := {
  ManifestDescriptor : Descriptor
}.

(** Lines 10-13. *)
Record Artifact : Type := {
  List : ListResult;
  Manifests : list OCI1
}.

(** Lines 16-24. *)
Definition TotalSize (a : Artifact) : Z :=
  fold_left (fun s artifact =>
               fold_left (fun s layer => wrap64 (s + Size layer)) (Layers artifact) s)
            (Manifests a) 0.

(** Line 26: a slice of pointers, [None] being the nil pointer. *)
Definition ArtifactList : Type := list (option Artifact).

Section GetByName.

(** [types.AnnotatedName], a constant declared outside the sources. *)
Variable AnnotatedName : string.

(** The condition of line 31. *)
Definition named (name : string) (artifact : Artifact) : bool :=
  match mapGet (Annotations (ManifestDescriptor (List artifact))) AnnotatedName with
  | Some val => String.eqb val name
  | None => false
  end.

(** Lines 29-36.  Reading [artifact.List] through a nil pointer panics. *)
Fixpoint GetByName (al : ArtifactList) (name : string)
  : outcome (option Artifact * option error) :=
  match al with
  | [] => Returns (None, Some (ErrorString ("no artifact found with name " ++ name)%string))
  | None :: _ => Panics
  | Some artifact :: rest =>
      match mapGet (Annotations (ManifestDescriptor (List artifact))) AnnotatedName with
      | Some val =>
          if String.eqb val name then Returns (Some artifact, None)
          else GetByName rest name
      | None => GetByName rest name
      end
  end.

End GetByName.

End Libartifact.

(** ** The bindings: [JoinURL] and the classes of a response *)

Module Bindings.

(** Lines 143-145. *)
Definition JoinURL (elements : list string) : string :=
  ("/" ++ Join elements "/")%string.

(** Lines 117-120: the field of the embedded [*http.Response] the methods
    read. *)
Record APIResponse : Type := {
  StatusCode : Z
}.

(** Lines 399-421.  Go's [/] on integers truncates toward zero. *)
Definition IsInformational (h : APIResponse) : bool := Z.quot (StatusCode h) 100 =? 1.
Definition IsSuccess (h : APIResponse) : bool := Z.quot (StatusCode h) 100 =? 2.
Definition IsRedirection (h : APIResponse) : bool := Z.quot (StatusCode h) 100 =? 3.
Definition IsClientError (h : APIResponse) : bool := Z.quot (StatusCode h) 100 =? 4.
Definition IsServerError (h : APIResponse) : bool := Z.quot (StatusCode h) 100 =? 5.

End Bindings.

(** ** The options of a secret *)

Module Secrets.










End Secrets.

(** ** Runs and values for the examples, continued *)

Definition rowsRun := exec (machine hostRows) (Top Shlex.Split ctr ["pid,comm"]) 3.
Definition stoppedRun := exec (machine hostStopped) (Top Shlex.Split ctr ["pid"]) 3.
Definition topPsFailsRun := exec (machine hostPsFails) (Top Shlex.Split ctr timeComm) 3.
Definition topPsKilledRun := exec (machine hostPsKilled) (Top Shlex.Split ctr timeComm) 3.
Definition noPsRun := exec (machine hostNoPs) (execPS ["time"; "comm"]) 3.
Definition noUnshareRun := exec (machineNoUnshare hostFallback) (execPS ["time"; "comm"]) 3.
Definition emptyRun := exec (machine hostFallback) (Top Shlex.Split ctr []) 3.
Definition pidInfoRun :=
  exec (machine hostRows) (GetContainerPidInformation ["pid"; "comm"]) 3.

(** The command of [execRun], as the trace records it. *)
Definition execRunCmd : event :=
  EvCmdRun "/proc/self/fd/8" dynamicArgs psOutput EmptyString None.

(** An artifact of two manifests and three layers. *)
Definition layer (size : Z) : Libartifact.Descriptor :=
  {| Libartifact.Size := size; Libartifact.Annotations := [] |}.
Definition twoManifests : Libartifact.Artifact :=
  {| Libartifact.List := {| Libartifact.ManifestDescriptor := layer 0 |};
     Libartifact.Manifests :=
       [ {| Libartifact.Layers := [layer 1024; layer 2048] |};
         {| Libartifact.Layers := [layer 4096] |} ] |}.






(** ** Proof steps *)

(** Answer the next call of the run in [H] on the host [h]. *)
Ltac step h H :=
  cbn [exec bind call] in H;
  match type of H with
  | context [h ?X ?c ?w] => destruct (h X c w) as [? ?] eqn:?
  end;
  cbn [log fst snd] in H.

(** The run in [H] has returned: read off result, trace and state. *)
Ltac finish H :=
  cbn [exec bind call log fst snd] in H;
  inversion H; subst; clear H.

(** * Properties *)

(** ** The string functions *)

Lemma Split_not_nil (s : string) (sep : ascii) : Split s sep <> [].
Proof.
  destruct s as [|ch rest]; simpl; [discriminate|].
  destruct (Ascii.eqb ch sep); [discriminate|].
  destruct (Split rest sep); discriminate.
Qed.

(** Joining the pieces with the separator gives the string back. *)
Lemma Join_Split (s : string) (sep : ascii) :
  Join (Split s sep) (String sep EmptyString) = s.
Proof.
  unfold Join. induction s as [|ch rest IH]; [reflexivity|].
  simpl. destruct (Ascii.eqb_spec ch sep) as [->|Hne].
  - pose proof (Split_not_nil rest sep) as Hnn.
    simpl. destruct (Split rest sep) as [|f fs]; [contradiction|].
    simpl in *. now rewrite IH.
  - pose proof (Split_not_nil rest sep) as Hnn.
    destruct (Split rest sep) as [|f fs]; [contradiction|].
    simpl in *. destruct fs; simpl in *; now rewrite <- IH.
Qed.

(** No piece holds the separator. *)
Lemma Split_no_sep (s : string) (sep : ascii) (piece : string) :
  In piece (Split s sep) -> hasByte sep piece = false.
Proof.
  revert piece. induction s as [|ch rest IH]; intros piece Hin; simpl in Hin.
  - destruct Hin as [<-|[]]. reflexivity.
  - destruct (Ascii.eqb ch sep) eqn:E.
    + destruct Hin as [<-|Hin]; [reflexivity|auto].
    + destruct (Split rest sep) as [|f fs].
      * destruct Hin as [<-|[]]. simpl. now rewrite E.
      * destruct Hin as [<-|Hin].
        -- simpl. rewrite E. apply IH. now left.
        -- apply IH. now right.
Qed.

Lemma prefix_app (sub s : string) :
  String.prefix sub s = true <-> exists back, s = (sub ++ back)%string.
Proof.
  revert s. induction sub as [|c sub IH]; intros s.
  - destruct s; simpl; split; eauto.
  - destruct s as [|d s]; simpl;
      [split; [discriminate|intros [b Hb]; discriminate]|].
    destruct (ascii_dec c d) as [->|Hne].
    + rewrite IH. split; intros [b Hb]; exists b; [now subst|now injection Hb].
    + split; [discriminate|]. intros [b Hb]. injection Hb as Hc _. congruence.
Qed.

Lemma index0_app (sub s : string) :
  String.index 0 sub s <> None <->
  exists front back, s = (front ++ sub ++ back)%string.
Proof.
  induction s as [|c s IH].
  - simpl. destruct sub; split.
    + intros _. now exists EmptyString, EmptyString.
    + discriminate.
    + congruence.
    + intros [f [b Hb]]. destruct f; discriminate.
  - cbn [String.index]. destruct (String.prefix sub (String c s)) eqn:Hp.
    + split; [intros _|discriminate].
      apply prefix_app in Hp as [b Hb]. now exists EmptyString, b.
    + split.
      * intros Hi. destruct (String.index 0 sub s) eqn:Hs; [|congruence].
        destruct (proj1 IH) as [f [b Hb]]; [discriminate|].
        exists (String c f), b. simpl. now rewrite Hb.
      * intros [f [b Hb]]. destruct f as [|c' f].
        -- simpl in Hb. assert (String.prefix sub (String c s) = true)
             by (apply prefix_app; eauto). congruence.
        -- simpl in Hb. injection Hb as _ Hs.
           destruct (String.index 0 sub s) eqn:Hi; [discriminate|].
           exfalso. apply (proj2 IH); eauto.
Qed.

(** [Contains s substr] holds exactly when [substr] occurs in [s]. *)
Lemma Contains_spec (s substr : string) :
  Contains s substr = true <->
  exists front back, s = (front ++ substr ++ back)%string.
Proof.
  rewrite <- index0_app. unfold Contains, Index.
  destruct (String.index 0 substr s) as [n|]; split; intros H.
  - discriminate.
  - apply Z.leb_le. lia.
  - discriminate.
  - now elim H.
Qed.

Lemma append_empty_r (s : string) : (s ++ EmptyString)%string = s.
Proof. induction s; simpl; congruence. Qed.

Lemma Contains_self (s : string) : Contains s s = true.
Proof.
  apply Contains_spec. exists EmptyString, EmptyString.
  simpl. now rewrite append_empty_r.
Qed.

(** ** The loops of [Top] *)

Lemma appendNonEmpty_filter (acc xs : list string) :
  appendNonEmpty acc xs = acc ++ filter nonEmpty xs.
Proof.
  unfold appendNonEmpty. revert acc.
  induction xs as [|x xs IH]; intros acc; simpl.
  - now rewrite List.app_nil_r.
  - rewrite IH. destruct (nonEmpty x); [|reflexivity].
    now rewrite <- List.app_assoc.
Qed.

Lemma psgoDescriptorsOf_flat_map (descriptors : list string) :
  psgoDescriptorsOf descriptors
  = flat_map (fun d => filter nonEmpty (Split d ","%char)) descriptors.
Proof.
  unfold psgoDescriptorsOf.
  enough (forall acc,
    fold_left (fun psgoDescriptors d => appendNonEmpty psgoDescriptors (Split d ","%char))
              descriptors acc
    = acc ++ flat_map (fun d => filter nonEmpty (Split d ","%char)) descriptors)
    as H by apply (H []).
  induction descriptors as [|d ds IH]; intros acc; simpl.
  - now rewrite List.app_nil_r.
  - now rewrite IH, appendNonEmpty_filter, List.app_assoc.
Qed.

Lemma filter_flat_map {A B : Type} (p : B -> bool) (f : A -> list B) (l : list A) :
  filter p (flat_map f l) = flat_map (fun a => filter p (f a)) l.
Proof.
  induction l as [|a l IH]; simpl; [reflexivity|].
  now rewrite filter_app, IH.
Qed.

Section ShlexLoops.

Variable shlex_Split : string -> list string * option error.

Lemma psDescriptorsFrom_ok (descriptors acc : list string) :
  (forall d, In d descriptors -> snd (shlex_Split d) = None) ->
  psDescriptorsFrom shlex_Split descriptors acc
  = (acc ++ shlexTokens shlex_Split descriptors, None).
Proof.
  unfold shlexTokens. revert acc.
  induction descriptors as [|d ds IH]; intros acc Hok; simpl.
  - now rewrite List.app_nil_r.
  - pose proof (Hok d (or_introl eq_refl)) as Hd.
    destruct (shlex_Split d) as [shSplit err]. simpl in Hd. subst err.
    rewrite IH by (intros; apply Hok; now right).
    simpl. now rewrite appendNonEmpty_filter, filter_app, List.app_assoc.
Qed.

Lemma psDescriptorsFrom_error (descriptors acc : list string) :
  (exists d, In d descriptors /\ snd (shlex_Split d) <> None) ->
  exists d e,
    In d descriptors /\ snd (shlex_Split d) = Some e /\
    psDescriptorsFrom shlex_Split descriptors acc
    = ([], Some (WrapError "parsing ps args: " e)).
Proof.
  revert acc. induction descriptors as [|d ds IH]; intros acc [d0 [Hin Hbad]].
  - destruct Hin.
  - simpl. destruct (shlex_Split d) as [shSplit [e|]] eqn:E.
    + exists d, e. rewrite E. split; [now left|split; reflexivity].
    + destruct Hin as [->|Hin]; [rewrite E in Hbad; now elim Hbad|].
      destruct (IH (appendNonEmpty acc shSplit)) as [d1 [e1 [H1 [H2 H3]]]]; [eauto|].
      exists d1, e1. split; [now right|split; assumption].
Qed.

Lemma filterPS_filter (descriptors output : list string) :
  filterPS descriptors output
  = filter (fun line => negb (Contains line (Join descriptors " "))) output.
Proof.
  unfold filterPS.
  enough (forall acc,
    fold_left (fun filtered line =>
                 if negb (Contains line (Join descriptors " "))
                 then filtered ++ [line] else filtered) output acc
    = acc ++ filter (fun line => negb (Contains line (Join descriptors " "))) output)
    as H by apply (H []).
  induction output as [|line out IH]; intros acc; simpl.
  - now rewrite List.app_nil_r.
  - rewrite IH. destruct (negb (Contains line (Join descriptors " "))); [|reflexivity].
    now rewrite <- List.app_assoc.
Qed.

End ShlexLoops.

(** ** Runs on an arbitrary host *)

Section Runs.

Context {W : Type} (h : Host W).

Lemma exec_bind {A B : Type} (p : prog A) (f : A -> prog B) (w : W) :
  exec h (bind p f) w
  = let '(a, tr, w1) := exec h p w in
    let '(b, tr', w2) := exec h (f a) w1 in
    (b, tr ++ tr', w2).
Proof.
  revert w. induction p as [a|X c k IH]; intros w; simpl.
  - destruct (exec h (f a) w) as [[b tr'] w2]. reflexivity.
  - destruct (h X c w) as [x w1]. rewrite IH.
    destruct (exec h (k x) w1) as [[a tr] w2].
    destruct (exec h (f a) w2) as [[b tr'] w3]. reflexivity.
Qed.

Lemma libOpens_lib path perm fd err tr :
  libOpens (EvUnixOpen path O_PATH perm fd err :: tr) = (path, fd, err) :: libOpens tr.
Proof. reflexivity. Qed.

Lemma libOpens_linker path perm fd err tr :
  libOpens (EvUnixOpen path (Z.lor O_PATH O_CLOEXEC) perm fd err :: tr) = libOpens tr.
Proof. reflexivity. Qed.

Lemma linkerOpens_lib path perm fd err tr :
  linkerOpens (EvUnixOpen path O_PATH perm fd err :: tr) = linkerOpens tr.
Proof. reflexivity. Qed.

Lemma linkerOpens_linker path perm fd err tr :
  linkerOpens (EvUnixOpen path (Z.lor O_PATH O_CLOEXEC) perm fd err :: tr)
  = (path, fd, err) :: linkerOpens tr.
Proof. reflexivity. Qed.

Lemma last_cons {A : Type} (l : list A) : forall a d, last (a :: l) d = last l a.
Proof.
  induction l as [|b l IH]; intros a d; [reflexivity|].
  change (last (a :: b :: l) d) with (last (b :: l) d). now rewrite !IH.
Qed.

Lemma lddLines_run (lines : list string) :
  forall preload0 linker0 w preload linkerPath lerr tr w',
  exec h (execPS_lddLines lines preload0 linker0) w
  = ((preload, linkerPath, lerr), tr, w') ->
  forallb isUnixOpen tr = true /\
  preload = preload0 ++ map fdPath (okFDs (libOpens tr)) /\
  match lerr with
  | None =>
      map openPath (libOpens tr) = reportedLibs lines /\
      openErrors (linkerOpens tr) = [] /\
      linkerPath = last (map fdPath (okFDs (linkerOpens tr))) linker0
  | Some e =>
      exists front path fd,
        tr = front ++ [EvUnixOpen path (Z.lor O_PATH O_CLOEXEC) 0 fd (Some e)] /\
        openErrors (linkerOpens front) = []
  end.
Proof.
  induction lines as [|line lines IH];
    intros preload0 linker0 w preload linkerPath lerr tr w' H.
  - cbn in H. injection H as <- <- <- <- <-. cbn. rewrite List.app_nil_r. auto.
  - cbn [execPS_lddLines] in H. cbn [reportedLibs flat_map].
    fold (reportedLibs lines).
    destruct (3 <? List.length (Fields line))%nat eqn:E3.
    + cbn [exec bind call] in H.
      destruct (h _ (UnixOpen (nth 2 (Fields line) EmptyString) O_PATH 0) w)
        as [[fd [e|]] w1] eqn:EO;
        cbn [exec bind call log fst snd] in H;
        match type of H with context [exec h ?p w1] =>
          destruct (exec h p w1) as [[[[pre1 lp1] lerr1] tr1] w2] eqn:ER end;
        injection H as <- <- <- <- <-;
        apply IH in ER as (Hall & Hpre & Hrest);
        rewrite libOpens_lib, linkerOpens_lib; cbn [forallb isUnixOpen andb];
        (split; [exact Hall|split]).
      * exact Hpre.
      * destruct lerr1 as [e1|].
        -- destruct Hrest as (front & p & fd1 & -> & Hf).
           eexists (_ :: front), p, fd1. split; [reflexivity|].
           now rewrite linkerOpens_lib.
        -- cbn. destruct Hrest as (-> & Hb & Hc). auto.
      * rewrite Hpre. cbn. now rewrite <- List.app_assoc.
      * destruct lerr1 as [e1|].
        -- destruct Hrest as (front & p & fd1 & -> & Hf).
           eexists (_ :: front), p, fd1. split; [reflexivity|].
           now rewrite linkerOpens_lib.
        -- cbn. destruct Hrest as (-> & Hb & Hc). auto.
    + destruct (List.length (Fields line) =? 2)%nat eqn:E2;
        [destruct (IsAbs (nth 0 (Fields line) EmptyString)) eqn:EA|].
      * cbn [exec bind call] in H.
        destruct (h _ (UnixOpen (nth 0 (Fields line) EmptyString) (Z.lor O_PATH O_CLOEXEC) 0) w)
          as [[fd [e|]] w1] eqn:EO; cbn [exec bind call log fst snd] in H.
        -- injection H as <- <- <- <- <-. cbn. rewrite List.app_nil_r.
           split; [reflexivity|split; [reflexivity|]].
           exists [], (nth 0 (Fields line) EmptyString), fd. split; reflexivity.
        -- match type of H with context [exec h ?p w1] =>
             destruct (exec h p w1) as [[[[pre1 lp1] lerr1] tr1] w2] eqn:ER end.
           injection H as <- <- <- <- <-.
           apply IH in ER as (Hall & Hpre & Hrest).
           rewrite libOpens_linker, linkerOpens_linker. cbn [forallb isUnixOpen andb].
           split; [exact Hall|split; [exact Hpre|]].
           destruct lerr1 as [e1|].
           ++ destruct Hrest as (front & p & fd1 & -> & Hf).
              eexists (_ :: front), p, fd1. split; [reflexivity|].
              rewrite linkerOpens_linker. exact Hf.
           ++ destruct Hrest as (Ha & Hb & Hc).
              cbn [okFDs openErrors flat_map snd fst app map].
              rewrite last_cons. auto.
      * apply IH in H as (Hall & Hpre & Hrest). auto.
      * apply IH in H as (Hall & Hpre & Hrest). auto.
Qed.

Lemma func2_run pid args w out err tr w' :
  exec h (execPS_func2 pid args) w = ((out, err), tr, w') ->
  forallb isGoroutineEvent tr = true /\
  (forall path args' stdout errBuf e,
     In (EvCmdRun path args' stdout errBuf e) tr ->
     path = hd EmptyString args /\ args' = "ps" :: tl args /\
     out = stdout /\ err = runError e errBuf) /\
  (nsFailed tr = false ->
   exists stdout errBuf e,
     In (EvCmdRun (hd EmptyString args) ("ps" :: tl args) stdout errBuf e) tr) /\
  (nsFailed tr = true ->
   out = [] /\ err <> None /\
   forall path args' stdout errBuf e, ~ In (EvCmdRun path args' stdout errBuf e) tr).
Proof.
  unfold execPS_func2. intros H.
  step h H. destruct p as [mntFD [e|]].
  { finish H. cbn. repeat split; try discriminate; intros; intuition discriminate. }
  step h H. destruct p as [pidFD [e|]].
  { finish H. cbn. repeat split; try discriminate; intros; intuition discriminate. }
  step h H. destruct o as [e|].
  { finish H. cbn. repeat split; try discriminate; intros; intuition discriminate. }
  step h H. destruct o as [e|].
  { finish H. cbn. repeat split; try discriminate; intros; intuition discriminate. }
  step h H. destruct o as [e|].
  { finish H. cbn. repeat split; try discriminate; intros; intuition discriminate. }
  step h H. destruct p as [[stdout errBuf] rerr].
  assert (Hres : out = stdout /\ err = runError rerr errBuf /\
                 tr = [EvOsOpen ("/proc/" ++ Itoa pid ++ "/ns/mnt")%string mntFD None;
                       EvOsOpen ("/proc/" ++ Itoa pid ++ "/ns/pid")%string pidFD None;
                       EvUnshare CLONE_NEWNS None; EvSetns mntFD CLONE_NEWNS None;
                       EvSetns pidFD CLONE_NEWPID None;
                       EvCmdRun (hd EmptyString args) ("ps" :: tl args) stdout errBuf rerr]).
  { destruct rerr as [e|]; [|finish H; auto].
    unfold runError. destruct (errors_As_ExitError e) as [code|].
    - destruct errBuf; finish H; auto.
    - finish H. destruct errBuf; auto. }
  clear H. destruct Hres as (-> & -> & ->).
  split; [reflexivity|split; [|split]].
  - intros path args' so eb e Hin. cbn in Hin.
    repeat (destruct Hin as [Hin|Hin]; [try discriminate|]); [|destruct Hin].
    injection Hin as <- <- <- <- <-. auto.
  - intros _. exists stdout, errBuf, rerr. cbn. auto 10.
  - cbn. discriminate.
Qed.

Lemma no_ldd_in_opens tr name arg output e :
  forallb isUnixOpen tr = true -> ~ In (EvCommandOutput name arg output e) tr.
Proof.
  intros Hall Hin. rewrite forallb_forall in Hall.
  apply Hall in Hin. discriminate.
Qed.

Lemma no_ldd_in_goroutine tr name arg output e :
  forallb isGoroutineEvent tr = true -> ~ In (EvCommandOutput name arg output e) tr.
Proof.
  intros Hall Hin. rewrite forallb_forall in Hall.
  apply Hall in Hin. discriminate.
Qed.

Lemma execPS_run psArgs w res tr w' :
  exec h (execPS psArgs) w = (res, tr, w') ->
  forall name arg output lddErr,
  In (EvCommandOutput name arg output lddErr) tr ->
  exists psPath psFD w1,
    name = "ldd" /\ arg = [fdPath psFD] /\
    tr = [EvOsPipe None; EvLookPath "ps" psPath None;
          EvUnixOpen psPath O_PATH 0 psFD None;
          EvCommandOutput "ldd" [fdPath psFD] output lddErr] ++ afterLdd tr /\
    match lddErr with
    | Some _ =>
        exists pid w2 trG,
          afterLdd tr = EvContainerPID pid :: trG /\
          exec h (execPS_func2 pid (fdPath psFD :: psArgs)) w2 = (res, trG, w')
    | None =>
        exists preload linkerPath lerr trL w2,
          exec h (execPS_lddLines (Split output LF) [] EmptyString) w1
          = ((preload, linkerPath, lerr), trL, w2) /\
          match lerr with
          | Some e => afterLdd tr = trL /\ res = ([], Some e)
          | None =>
              exists pid w3 trG,
                afterLdd tr = trL ++ EvContainerPID pid :: trG /\
                exec h (execPS_func2 pid
                          ([linkerPath; "--argv0"; "ps"; "--preload"; Join preload " "]
                           ++ fdPath psFD :: psArgs)) w3
                = (res, trG, w')
          end
    end.
Proof.
  unfold execPS. intros H name arg output lddErr Hin.
  destruct res as [rout rerr].
  step h H. destruct o as [e|].
  { finish H. cbn in Hin. intuition discriminate. }
  step h H. destruct p as [psPath [e|]].
  { finish H. cbn in Hin. intuition discriminate. }
  step h H. destruct p as [psFD [e|]].
  { finish H. cbn in Hin. intuition discriminate. }
  step h H. destruct p as [out0 lddErr0].
  exists psPath, psFD, w3.
  destruct lddErr0 as [e0|].
  - step h H.
    destruct (exec h (execPS_func2 z (fdPath psFD :: psArgs)) w4)
      as [[r trG] w5] eqn:EG.
    finish H.
    pose proof (func2_run _ _ _ _ _ _ _ EG) as (Hg & _).
    cbn in Hin.
    destruct Hin as [Hin|[Hin|[Hin|[Hin|[Hin|Hin]]]]]; try discriminate.
    + injection Hin as <- <- <- <-. cbn [afterLdd app].
      split; [reflexivity|split; [reflexivity|split; [reflexivity|]]]. exists z. do 2 eexists. split; [reflexivity|eassumption].
    + exfalso. eapply no_ldd_in_goroutine; eauto.
  - cbn [exec bind call] in H. rewrite !exec_bind in H.
    destruct (exec h (execPS_lddLines (Split out0 LF) [] EmptyString) w3)
      as [[[[preload linkerPath] lerr] trL] w4] eqn:EL.
    pose proof (lddLines_run _ _ _ _ _ _ _ _ _ EL) as (Hl & _).
    cbn [exec bind call] in H.
    destruct lerr as [e|].
    + finish H. cbn in Hin.
      destruct Hin as [Hin|[Hin|[Hin|[Hin|Hin]]]]; try discriminate.
      * injection Hin as <- <- <- <-. cbn [afterLdd app].
        split; [reflexivity|split; [reflexivity|split; [reflexivity|]]]. exists preload, linkerPath, (Some e), trL. eexists.
        split; [exact EL|]. split; [now rewrite !List.app_nil_r|reflexivity].
      * exfalso. rewrite !List.app_nil_r in Hin. eapply no_ldd_in_opens; eauto.
    + step h H.
      match type of H with context [exec h ?p w5] =>
        destruct (exec h p w5) as [[r trG] w6] eqn:EG end.
      finish H.
      pose proof (func2_run _ _ _ _ _ _ _ EG) as (Hg & _).
      cbn in Hin.
      destruct Hin as [Hin|[Hin|[Hin|[Hin|Hin]]]]; try discriminate.
      * injection Hin as <- <- <- <-. cbn [afterLdd app].
        split; [reflexivity|split; [reflexivity|split; [reflexivity|]]]. exists preload, linkerPath, None, trL. eexists.
        split; [exact EL|]. exists z. do 2 eexists.
        split; [now rewrite List.app_nil_r|eassumption].
      * exfalso. rewrite List.app_nil_r in Hin.
        apply in_app_or in Hin as [Hin|[Hin|Hin]]; try discriminate.
        -- eapply no_ldd_in_opens; eauto.
        -- eapply no_ldd_in_goroutine; eauto.
Qed.

(** Every call of [execPS] is one of its own, or the read of the PID. *)
Lemma execPS_events psArgs w res tr w' :
  exec h (execPS psArgs) w = (res, tr, w') ->
  forall ev, In ev tr ->
  isFallbackEvent ev = true \/ exists pid, ev = EvContainerPID pid.
Proof.
  assert (Hopen : forall l ev, forallb isUnixOpen l = true -> In ev l ->
                               isFallbackEvent ev = true).
  { intros l ev Hall Hin. rewrite forallb_forall in Hall.
    apply Hall in Hin. now destruct ev. }
  assert (Hgo : forall l ev, forallb isGoroutineEvent l = true -> In ev l ->
                             isFallbackEvent ev = true).
  { intros l ev Hall Hin. rewrite forallb_forall in Hall.
    apply Hall in Hin. now destruct ev. }
  unfold execPS. intros H ev Hin. destruct res as [rout rerr].
  step h H. destruct o as [e|].
  { finish H. cbn in Hin. intuition (subst; auto). }
  step h H. destruct p as [psPath [e|]].
  { finish H. cbn in Hin. intuition (subst; auto). }
  step h H. destruct p as [psFD [e|]].
  { finish H. cbn in Hin. intuition (subst; auto). }
  step h H. destruct p as [out0 [e0|]].
  - step h H.
    match type of H with context [exec h ?p ?w] =>
      destruct (exec h p w) as [[r trG] w5] eqn:EG end.
    finish H.
    pose proof (func2_run _ _ _ _ _ _ _ EG) as (Hg & _).
    cbn in Hin.
    destruct Hin as [<-|[<-|[<-|[<-|[<-|Hin]]]]]; eauto.
  - cbn [exec bind call] in H. rewrite !exec_bind in H.
    destruct (exec h (execPS_lddLines (Split out0 LF) [] EmptyString) w3)
      as [[[[preload linkerPath] lerr] trL] w4] eqn:EL.
    pose proof (lddLines_run _ _ _ _ _ _ _ _ _ EL) as (Hl & _).
    cbn [exec bind call] in H.
    destruct lerr as [e|].
    + finish H. cbn in Hin. rewrite !List.app_nil_r in Hin.
      destruct Hin as [<-|[<-|[<-|[<-|Hin]]]]; eauto.
    + step h H.
      match type of H with context [exec h ?p ?w] =>
        destruct (exec h p w) as [[r trG] w6] eqn:EG end.
      finish H.
      pose proof (func2_run _ _ _ _ _ _ _ EG) as (Hg & _).
      cbn in Hin. rewrite List.app_nil_r in Hin.
      destruct Hin as [<-|[<-|[<-|[<-|Hin]]]]; eauto.
      apply in_app_or in Hin as [Hin|[<-|Hin]]; eauto.
Qed.

(** A run of [execPS] that reaches [cmd.Run()] has asked [ldd] before. *)
Lemma execPS_ldd_called psArgs w res tr w' :
  exec h (execPS psArgs) w = (res, tr, w') ->
  forall path args stdout errBuf e,
  In (EvCmdRun path args stdout errBuf e) tr ->
  exists name arg output lddErr, In (EvCommandOutput name arg output lddErr) tr.
Proof.
  unfold execPS. intros H path args stdout errBuf re Hin. destruct res as [rout rerr].
  step h H. destruct o as [e|].
  { finish H. cbn in Hin. intuition discriminate. }
  step h H. destruct p as [psPath [e|]].
  { finish H. cbn in Hin. intuition discriminate. }
  step h H. destruct p as [psFD [e|]].
  { finish H. cbn in Hin. intuition discriminate. }
  step h H. destruct p as [out0 lddErr0].
  match type of H with context [exec h ?p ?w] =>
    destruct (exec h p w) as [[r trR] w5] eqn:ER end.
  finish H. do 4 eexists. do 3 right. left. reflexivity.
Qed.

(** What [execPS] returns when it has run the command. *)
Lemma execPS_cmdRun psArgs w out err tr w' :
  exec h (execPS psArgs) w = ((out, err), tr, w') ->
  forall path args stdout errBuf e,
  In (EvCmdRun path args stdout errBuf e) tr ->
  out = stdout /\ err = runError e errBuf.
Proof.
  intros H path args stdout errBuf re Hin.
  destruct (execPS_ldd_called _ _ _ _ _ H _ _ _ _ _ Hin)
    as (name & arg & output & lddErr & Hldd).
  destruct (execPS_run _ _ _ _ _ H _ _ _ _ Hldd)
    as (psPath & psFD & w1 & _ & _ & Htr & Hrest).
  rewrite Htr in Hin. cbn in Hin.
  destruct Hin as [Hin|[Hin|[Hin|[Hin|Hin]]]]; try discriminate.
  destruct lddErr as [le|].
  - destruct Hrest as (pid & w2 & trG & Ha & EG). rewrite Ha in Hin.
    destruct Hin as [Hin|Hin]; [discriminate|].
    pose proof (func2_run _ _ _ _ _ _ _ EG) as (_ & Hrun & _).
    now apply Hrun in Hin.
  - destruct Hrest as (preload & linkerPath & lerr & trL & w2 & EL & Hrest).
    pose proof (lddLines_run _ _ _ _ _ _ _ _ _ EL) as (Hl & _).
    rewrite forallb_forall in Hl.
    destruct lerr as [e|].
    + destruct Hrest as (Ha & _). rewrite Ha in Hin. apply Hl in Hin. discriminate.
    + destruct Hrest as (pid & w3 & trG & Ha & EG). rewrite Ha in Hin.
      apply in_app_or in Hin as [Hin|[Hin|Hin]]; try discriminate.
      * apply Hl in Hin. discriminate.
      * pose proof (func2_run _ _ _ _ _ _ _ EG) as (_ & Hrun & _).
        now apply Hrun in Hin.
Qed.

Lemma rows_joined (rows : list (list string)) :
  fold_left (fun res out => res ++ [Join out TAB]) rows []
  = map (fun out => Join out TAB) rows.
Proof.
  enough (forall acc, fold_left (fun res out => res ++ [Join out TAB]) rows acc
                      = acc ++ map (fun out => Join out TAB) rows) as H by apply (H []).
  induction rows as [|r rows IH]; intros acc; simpl.
  - now rewrite List.app_nil_r.
  - now rewrite IH, <- List.app_assoc.
Qed.

Lemma ContainerStatus_eqb_eq (a b : ContainerStatus) :
  ContainerStatus_eqb a b = true <-> a = b.
Proof.
  destruct a as [|n], b as [|m]; simpl; split; try congruence; try discriminate.
  - intros E. apply Nat.eqb_eq in E. now subst.
  - intros E. injection E as ->. apply Nat.eqb_refl.
Qed.

(** The runs of [Top], by the place it returns from. *)
Lemma Top_cases shlex c descriptors w res tr w' :
  exec h (Top shlex c descriptors) w = (res, tr, w') ->
  (config_NoCgroups c = true /\ tr = [] /\ w' = w /\
   res = ([], Some (NoCgroupsError c)))
  \/ (config_NoCgroups c = false /\
      exists st e,
        fst (h _ ContainerState w) = (st, Some e) /\
        tr = [EvContainerState st (Some e)] /\
        res = ([], Some (WrapError ("unable to look up state for " ++ ID c ++ ": ")%string e)))
  \/ (config_NoCgroups c = false /\
      exists st,
        fst (h _ ContainerState w) = (st, None) /\
        st <> ContainerStateRunning /\ tr = [EvContainerState st None] /\
        res = ([], Some NotRunningError))
  \/ (config_NoCgroups c = false /\
      exists statePID fill rows perr w1 trF,
        tr = providerEvents statePID descriptors fill rows perr ++ trF /\
        match perr with
        | None => trF = [] /\ res = (map (fun out => Join out TAB) rows, None)
        | Some e =>
            if errors_Is e ErrUnknownDescriptor then
              match psDescriptorsFrom shlex descriptors [] with
              | (_, Some perr) => trF = [] /\ res = ([], Some perr)
              | (psDescriptors, None) =>
                  exists out err,
                    exec h (execPS psDescriptors) w1 = ((out, err), trF, w') /\
                    res = match err with
                          | Some e =>
                              ([], Some (WrapError "executing ps(1) in the container: " e))
                          | None => (filterPS descriptors out, None)
                          end
              end
            else trF = [] /\ res = ([], Some e)
        end).
Proof.
  unfold Top. intros H. remember execPS as fallback eqn:Efb.
  destruct (config_NoCgroups c) eqn:EC.
  { finish H. left. auto. }
  right. step h H. destruct p as [conStat [e|]].
  { finish H. left. split; [reflexivity|]. exists conStat, e.
    auto. }
  right.
  destruct (ContainerStatus_eqb conStat ContainerStateRunning) eqn:ES; cbn [negb] in H.
  2:{ finish H. left. split; [reflexivity|]. exists conStat.
      split; [reflexivity|].
      split; [intros E; subst conStat; discriminate ES|split; reflexivity]. }
  apply ContainerStatus_eqb_eq in ES. subst conStat.
  right. split; [reflexivity|].
  unfold GetContainerPidInformation in H.
  step h H. step h H. step h H. destruct p as [rows [e|]].
  - cbn [exec bind call] in H.
    destruct (errors_Is e ErrUnknownDescriptor) eqn:EU; cbn [negb] in H.
    + destruct (psDescriptorsFrom shlex descriptors []) as [psDescriptors [perr|]] eqn:EP.
      * finish H. exists z, b, rows, (Some e), w', [].
        split; [reflexivity|]. rewrite EU. auto.
      * rewrite exec_bind in H.
        destruct (exec h (fallback psDescriptors) w3) as [[[out err] trF] wF] eqn:EF.
        rewrite Efb in EF.
        exists z, b, rows, (Some e), w3, trF. rewrite EU.
        destruct err as [e1|]; finish H;
          (split; [unfold providerEvents; cbn; now rewrite ?List.app_nil_r|]);
          exists out; eexists; (split; [exact EF|reflexivity]).
    + finish H. exists z, b, rows, (Some e), w', [].
      split; [reflexivity|]. rewrite EU. auto.
  - finish H. exists z, b, rows, None, w', [].
    split; [reflexivity|]. split; [reflexivity|].
    f_equal. apply rows_joined.
Qed.



Lemma opensWith_app mode l1 l2 :
  opensWith mode (l1 ++ l2) = opensWith mode l1 ++ opensWith mode l2.
Proof. unfold opensWith. apply flat_map_app. Qed.

Lemma opensWith_no_open mode l :
  forallb (fun ev => negb (isUnixOpen ev)) l = true -> opensWith mode l = [].
Proof.
  induction l as [|ev l IH]; [reflexivity|]. cbn [forallb].
  intros Hl. apply andb_prop in Hl as [Hev Hl].
  unfold opensWith in *. cbn [flat_map]. rewrite (IH Hl).
  destruct ev; try reflexivity. discriminate.
Qed.

Lemma goroutine_no_open l :
  forallb isGoroutineEvent l = true ->
  forallb (fun ev => negb (isUnixOpen ev)) l = true.
Proof.
  intros Hl. rewrite forallb_forall in *. intros ev Hin.
  apply Hl in Hin. now destruct ev.
Qed.

Lemma nsFailed_app l1 l2 : nsFailed (l1 ++ l2) = nsFailed l1 || nsFailed l2.
Proof. apply existsb_app. Qed.

Lemma nsFailed_opens l : forallb isUnixOpen l = true -> nsFailed l = false.
Proof.
  induction l as [|ev l IH]; [reflexivity|]. cbn [forallb].
  intros Hl. apply andb_prop in Hl as [Hev Hl].
  unfold nsFailed in *. cbn [existsb]. rewrite (IH Hl).
  destruct ev; try discriminate. reflexivity.
Qed.

Lemma failed_linker_open_in path perm fd e tr :
  In (EvUnixOpen path (Z.lor O_PATH O_CLOEXEC) perm fd (Some e)) tr ->
  In e (openErrors (linkerOpens tr)).
Proof.
  induction tr as [|ev tr IH]; [intros []|].
  intros [->|Hin].
  - rewrite linkerOpens_linker. cbn. now left.
  - unfold linkerOpens, opensWith in *. cbn [flat_map].
    unfold openErrors. rewrite flat_map_app. apply in_or_app. right. now apply IH.
Qed.

End Runs.

(** ** Runs of the fallback, by cases *)

Section MoreRuns.

Context {W : Type} (h : Host W).

(** The goroutine either joins the namespaces and runs the command, or stops
    at the namespace step that failed. *)
Lemma func2_cases pid args w out err tr w' :
  exec h (execPS_func2 pid args) w = ((out, err), tr, w') ->
  (exists mntFD pidFD stdout errBuf rerr,
     tr = nsJoined pid mntFD pidFD
          ++ [EvCmdRun (hd EmptyString args) ("ps" :: tl args) stdout errBuf rerr] /\
     out = stdout /\ err = runError rerr errBuf)
  \/
  (exists front ev,
     tr = front ++ [ev] /\ out = [] /\ err = nsStepError ev /\ err <> None /\
     nsFailed tr = true /\ forallb (fun e => negb (isCmdRun e)) tr = true).
Proof.
  unfold execPS_func2. intros H.
  step h H. destruct p as [mntFD [e|]].
  { finish H. right. eexists [], _. repeat split; discriminate. }
  step h H. destruct p as [pidFD [e|]].
  { finish H. right. eexists [_], _. repeat split; discriminate. }
  step h H. destruct o as [e|].
  { finish H. right. eexists [_; _], _. repeat split; discriminate. }
  step h H. destruct o as [e|].
  { finish H. right. eexists [_; _; _], _. repeat split; discriminate. }
  step h H. destruct o as [e|].
  { finish H. right. eexists [_; _; _; _], _. repeat split; discriminate. }
  step h H. destruct p as [[stdout errBuf] rerr].
  left. exists mntFD, pidFD, stdout, errBuf, rerr.
  destruct rerr as [e|]; [|finish H; auto].
  unfold runError. destruct (errors_As_ExitError e) as [code|].
  - destruct errBuf; finish H; auto.
  - finish H. destruct errBuf; auto.
Qed.

(** [execPS] returns before [ldd] only when the pipe, the search for ps or the
    open of ps has failed. *)
Lemma execPS_cases psArgs w out err tr w' :
  exec h (execPS psArgs) w = ((out, err), tr, w') ->
  (exists e,
     out = [] /\ err = Some e /\
     (tr = [EvOsPipe (Some e)]
      \/ (exists psPath, tr = [EvOsPipe None; EvLookPath "ps" psPath (Some e)])
      \/ (exists psPath fd,
            tr = [EvOsPipe None; EvLookPath "ps" psPath None;
                  EvUnixOpen psPath O_PATH 0 fd (Some e)])))
  \/ (exists name arg output lddErr, In (EvCommandOutput name arg output lddErr) tr).
Proof.
  unfold execPS. intros H.
  step h H. destruct o as [e|].
  { finish H. left. exists e. auto. }
  step h H. destruct p as [psPath [e|]].
  { finish H. left. exists e. eauto 6. }
  step h H. destruct p as [psFD [e|]].
  { finish H. left. exists e. eauto 8. }
  step h H. destruct p as [out0 lddErr0].
  match type of H with context [exec h ?p ?w] =>
    destruct (exec h p w) as [[r trR] w5] eqn:ER end.
  finish H. right. do 4 eexists. do 3 right. left. reflexivity.
Qed.

(** The linkers the loop opens are the ones the lines report, in order. *)
Lemma lddLines_linkers (lines : list string) :
  forall preload0 linker0 w preload linkerPath tr w',
  exec h (execPS_lddLines lines preload0 linker0) w
  = ((preload, linkerPath, None), tr, w') ->
  map openPath (linkerOpens tr) = reportedLinkers lines.
Proof.
  induction lines as [|line lines IH];
    intros preload0 linker0 w preload linkerPath tr w' H.
  - cbn in H. injection H as Ha Hb Hc Hd; subst. reflexivity.
  - cbn [execPS_lddLines] in H. cbn [reportedLinkers flat_map].
    fold (reportedLinkers lines).
    destruct (3 <? List.length (Fields line))%nat eqn:E3.
    + cbn [exec bind call] in H.
      destruct (h _ (UnixOpen (nth 2 (Fields line) EmptyString) O_PATH 0) w)
        as [[fd [e|]] w1] eqn:EO;
        cbn [exec bind call log fst snd] in H;
        match type of H with context [exec h ?p w1] =>
          destruct (exec h p w1) as [[[[pre1 lp1] lerr1] tr1] w2] eqn:ER end;
        injection H as Ha Hb Hc Hd He; subst;
        apply IH in ER; rewrite linkerOpens_lib; exact ER.
    + destruct (List.length (Fields line) =? 2)%nat eqn:E2;
        [destruct (IsAbs (nth 0 (Fields line) EmptyString)) eqn:EA|].
      * cbn [exec bind call] in H.
        destruct (h _ (UnixOpen (nth 0 (Fields line) EmptyString)
                                (Z.lor O_PATH O_CLOEXEC) 0) w)
          as [[fd [e|]] w1] eqn:EO; cbn [exec bind call log fst snd] in H.
        -- discriminate H.
        -- match type of H with context [exec h ?p w1] =>
             destruct (exec h p w1) as [[[[pre1 lp1] lerr1] tr1] w2] eqn:ER end.
           injection H as Ha Hb Hc Hd He; subst.
           apply IH in ER. rewrite linkerOpens_linker. cbn [map openPath fst app].
           now rewrite ER.
      * apply IH in H. exact H.
      * apply IH in H. exact H.
Qed.

(** An open recorded by [opensWith] is an event of the trace. *)
Lemma opensWith_in mode path fd err tr :
  In (path, fd, err) (opensWith mode tr) ->
  exists perm, In (EvUnixOpen path mode perm fd err) tr.
Proof.
  induction tr as [|ev tr IH]; [intros []|].
  unfold opensWith. cbn [flat_map]. intros Hin.
  apply in_app_or in Hin as [Hin|Hin].
  - destruct ev; try destruct Hin.
    destruct (mode0 =? mode) eqn:E; [|destruct Hin].
    apply Z.eqb_eq in E. subst mode0.
    destruct Hin as [Hin|[]]. injection Hin as -> -> ->.
    exists perm. now left.
  - destruct (IH Hin) as [perm Hp]. exists perm. now right.
Qed.

Lemma okFDs_in fd opens :
  In fd (okFDs opens) -> exists path, In (path, fd, None) opens.
Proof.
  induction opens as [|[[p f] e] opens IH]; [intros []|].
  unfold okFDs. cbn [flat_map snd fst]. intros Hin.
  apply in_app_or in Hin as [Hin|Hin].
  - destruct e; [destruct Hin|]. destruct Hin as [<-|[]]. exists p. now left.
  - destruct (IH Hin) as [path Hp]. exists path. now right.
Qed.

Lemma countEvents_app p l1 l2 :
  countEvents p (l1 ++ l2) = (countEvents p l1 + countEvents p l2)%nat.
Proof. unfold countEvents. now rewrite filter_app, length_app. Qed.

Lemma countEvents_none p l :
  forallb (fun ev => negb (p ev)) l = true -> countEvents p l = 0%nat.
Proof.
  unfold countEvents. induction l as [|ev l IH]; [reflexivity|].
  cbn [forallb filter]. intros H. apply andb_prop in H as [Hev Hl].
  apply negb_true_iff in Hev. rewrite Hev. now apply IH.
Qed.

End MoreRuns.

(** ** The guards of [Top] *)

Lemma run_eta {A W : Type} (r : A * list event * W) : r = (result r, trace r, snd r).
Proof. now destruct r as [[a tr] w]. Qed.

(** C8. For every container created without a cgroup, [Top] fails with the
    no-cgroups error whatever the descriptors, and it does so before anything
    else is attempted: the trace of the run is empty (no state inspection, no
    provider call, no namespace operation) and the host is left as it was. *)
Theorem Top_NoCgroups_first {W : Type} (h : Host W) (w : W)
  (shlex : string -> list string * option error)
  (c : Container) (descriptors : list string) :
  config_NoCgroups c = true ->
  exec h (Top shlex c descriptors) w = (([], Some (NoCgroupsError c)), [], w) /\
  errors_Is (NoCgroupsError c) ErrNoCgroups = true.
Proof.
  intros Hc. unfold Top. rewrite Hc. split; reflexivity.
Qed.

Lemma Top_NoCgroups_first_witness :
  exec (machine hostStopped) (Top Shlex.Split ctrNoCgroups ["pid"]) 3
  = (([], Some (NoCgroupsError ctrNoCgroups)), [], 3) /\
  errors_Is (NoCgroupsError ctrNoCgroups) ErrNoCgroups = true.
Proof. apply Top_NoCgroups_first. reflexivity. Defined.

(** C7, amended. For every container that was created with a cgroup and whose
    state lookup succeeds with a state other than running, [Top] fails with
    the not-running error whatever the descriptors; the state lookup is the
    only call it has made. *)
Theorem Top_NotRunning {W : Type} (h : Host W) (w w1 : W)
  (shlex : string -> list string * option error)
  (c : Container) (descriptors : list string) (st : ContainerStatus) :
  config_NoCgroups c = false ->
  h _ ContainerState w = ((st, None), w1) ->
  st <> ContainerStateRunning ->
  exec h (Top shlex c descriptors) w
  = (([], Some NotRunningError), [EvContainerState st None], w1).
Proof.
  intros Hc Hs Hst. unfold Top. rewrite Hc. cbn [exec bind call]. rewrite Hs.
  destruct (ContainerStatus_eqb st ContainerStateRunning) eqn:E.
  - apply ContainerStatus_eqb_eq in E. contradiction.
  - reflexivity.
Qed.

Lemma Top_NotRunning_witness :
  exec (machine hostStopped) (Top Shlex.Split ctr ["pid"]) 3
  = (([], Some NotRunningError), [EvContainerState (ContainerStateOther 4) None], 3).
Proof. apply Top_NotRunning; [reflexivity|reflexivity|discriminate]. Defined.

(** C7 as stated fails on a stopped container that was created without a
    cgroup: the host reports a state other than running, and [Top] returns
    the no-cgroups error of line 30, not the not-running error. *)
Lemma Top_NotRunning_counterexample :
  machine hostStopped _ ContainerState 3 = ((ContainerStateOther 4, None), 3) /\
  ContainerStateOther 4 <> ContainerStateRunning /\
  result (exec (machine hostStopped) (Top Shlex.Split ctrNoCgroups ["pid"]) 3)
  = ([], Some (NoCgroupsError ctrNoCgroups)) /\
  result (exec (machine hostStopped) (Top Shlex.Split ctrNoCgroups ["pid"]) 3)
  <> ([], Some NotRunningError).
Proof. repeat split; discriminate. Qed.

(** ** The structured path *)

(** A run of [Top] that calls the structured provider: what it was called
    with and how the run goes on. *)
Lemma provider_event_in_run {W : Type} (h : Host W) (w w' : W)
  (shlex : string -> list string * option error)
  (c : Container) (descriptors : list string) res tr :
  exec h (Top shlex c descriptors) w = (res, tr, w') ->
  forall pid ds fill rows perr,
  In (EvJoinNamespaceAndProcessInfo pid ds fill rows perr) tr ->
  exists statePID w1 trF,
    pid = Itoa statePID /\ ds = psgoDescriptorsOf descriptors /\
    tr = providerEvents statePID descriptors fill rows perr ++ trF /\
    match perr with
    | None => trF = [] /\ res = (map (fun out => Join out TAB) rows, None)
    | Some e =>
        if errors_Is e ErrUnknownDescriptor then
          match psDescriptorsFrom shlex descriptors [] with
          | (_, Some perr) => trF = [] /\ res = ([], Some perr)
          | (psDescriptors, None) =>
              exists out err,
                exec h (execPS psDescriptors) w1 = ((out, err), trF, w') /\
                res = match err with
                      | Some e =>
                          ([], Some (WrapError "executing ps(1) in the container: " e))
                      | None => (filterPS descriptors out, None)
                      end
          end
        else trF = [] /\ res = ([], Some e)
    end.
Proof.
  intros H pid ds fill rows perr Hin.
  destruct (Top_cases h _ _ _ _ _ _ _ H)
    as [(_ & -> & _)|[(_ & st & e & _ & -> & _)|[(_ & st & _ & _ & -> & _)|
        (_ & statePID & fill0 & rows0 & perr0 & w1 & trF & Htr & Hrest)]]].
  - destruct Hin.
  - destruct Hin as [Hin|[]]. discriminate.
  - destruct Hin as [Hin|[]]. discriminate.
  - assert (HF : ~ In (EvJoinNamespaceAndProcessInfo pid ds fill rows perr) trF).
    { intros HinF. destruct perr0 as [e|].
      - destruct (errors_Is e ErrUnknownDescriptor).
        + destruct (psDescriptorsFrom shlex descriptors []) as [psD [pe|]].
          * destruct Hrest as (-> & _). destruct HinF.
          * destruct Hrest as (out & err & EF & _).
            destruct (execPS_events h _ _ _ _ _ EF _ HinF) as [Hf|[p Hp]]; discriminate.
        + destruct Hrest as (-> & _). destruct HinF.
      - destruct Hrest as (-> & _). destruct HinF. }
    rewrite Htr in Hin. unfold providerEvents in Hin. cbn in Hin.
    destruct Hin as [Hin|[Hin|[Hin|[Hin|Hin]]]]; try discriminate; [|contradiction].
    injection Hin as <- <- <- <- <-.
    exists statePID, w1, trF. auto.
Qed.

(** C9. For every input descriptor list, the list [Top] passes to the
    structured provider is the concatenation, in input order, of the pieces
    of each input token split at its commas, the empty pieces left out; and
    [Top] does call the provider, with that list, on every container that has
    a cgroup and is reported running. *)
Theorem Top_provider_descriptors {W : Type} (h : Host W) (w w' : W)
  (shlex : string -> list string * option error)
  (c : Container) (descriptors : list string) res tr :
  exec h (Top shlex c descriptors) w = (res, tr, w') ->
  (forall pid ds fill rows perr,
     In (EvJoinNamespaceAndProcessInfo pid ds fill rows perr) tr ->
     ds = flat_map (fun d => filter nonEmpty (Split d ","%char)) descriptors) /\
  (config_NoCgroups c = false ->
   fst (h _ ContainerState w) = (ContainerStateRunning, None) ->
   exists pid fill rows perr,
     In (EvJoinNamespaceAndProcessInfo
           pid (flat_map (fun d => filter nonEmpty (Split d ","%char)) descriptors)
           fill rows perr) tr).
Proof.
  intros H. split.
  - intros pid ds fill rows perr Hin.
    destruct (provider_event_in_run h _ _ _ _ _ _ _ H _ _ _ _ _ Hin)
      as (statePID & w1 & trF & _ & -> & _).
    apply psgoDescriptorsOf_flat_map.
  - intros Hc Hs.
    destruct (Top_cases h _ _ _ _ _ _ _ H)
      as [(Hc' & _)|[(_ & st & e & Hs' & _)|[(_ & st & Hs' & Hst & _)|
          (_ & statePID & fill & rows & perr & w1 & trF & Htr & _)]]].
    + congruence.
    + rewrite Hs in Hs'. discriminate.
    + rewrite Hs in Hs'. injection Hs' as <-. contradiction.
    + exists (Itoa statePID), fill, rows, perr.
      rewrite Htr, <- psgoDescriptorsOf_flat_map.
      unfold providerEvents. cbn. auto.
Qed.

Lemma Top_provider_descriptors_witness :
  (forall pid ds fill rows perr,
     In (EvJoinNamespaceAndProcessInfo pid ds fill rows perr) (trace fallbackRun) ->
     ds = flat_map (fun d => filter nonEmpty (Split d ","%char)) quotedDescriptors) /\
  exists pid fill rows perr,
    In (EvJoinNamespaceAndProcessInfo
          pid (flat_map (fun d => filter nonEmpty (Split d ","%char)) quotedDescriptors)
          fill rows perr) (trace fallbackRun).
Proof.
  destruct (Top_provider_descriptors (machine hostFallback) 3 _ Shlex.Split ctr
              quotedDescriptors _ _ (run_eta fallbackRun)) as [Hcalled Hcalls].
  split; [exact Hcalled|]. apply Hcalls; reflexivity.
Defined.

Example quotedDescriptors_lists :
  flat_map (fun d => filter nonEmpty (Split d ","%char)) quotedDescriptors
  = ["-o 'time comm'"; "pid"; "args"] /\
  filter nonEmpty (flat_map (fun d => fst (Shlex.Split d)) quotedDescriptors)
  = ["-o"; "time comm"; "pid,args"].
Proof. split; reflexivity. Qed.

(** ** The choice between the structured path and the fallback *)

(** C1. When the structured provider fails with an error that is
    [ErrUnknownDescriptor], the run of [Top] goes on as the run of [execPS] on
    the list made of the shell words of each original descriptor, in order,
    the empty words left out (not the comma-split list), provided every
    descriptor tokenizes, and [Top]'s result is made of what [execPS]
    returns.  When some descriptor does not tokenize, [Top] returns the
    error "parsing ps args" around the tokenizer's error and the trace stops
    at the provider call: no call of the fallback is made. *)
Theorem Top_fallback_shlex {W : Type} (h : Host W) (w w' : W)
  (shlex : string -> list string * option error)
  (c : Container) (descriptors : list string) res tr :
  exec h (Top shlex c descriptors) w = (res, tr, w') ->
  forall pid ds fill rows e,
  In (EvJoinNamespaceAndProcessInfo pid ds fill rows (Some e)) tr ->
  errors_Is e ErrUnknownDescriptor = true ->
  ((forall d, In d descriptors -> snd (shlex d) = None) ->
   exists statePID w1 out err trF,
     tr = providerEvents statePID descriptors fill rows (Some e) ++ trF /\
     exec h (execPS (filter nonEmpty (flat_map (fun d => fst (shlex d)) descriptors))) w1
     = ((out, err), trF, w') /\
     res = match err with
           | Some e' => ([], Some (WrapError "executing ps(1) in the container: " e'))
           | None => (filterPS descriptors out, None)
           end)
  /\
  ((exists d, In d descriptors /\ snd (shlex d) <> None) ->
   exists statePID d e',
     In d descriptors /\ snd (shlex d) = Some e' /\
     res = ([], Some (WrapError "parsing ps args: " e')) /\
     tr = providerEvents statePID descriptors fill rows (Some e) /\
     forallb (fun ev => negb (isFallbackEvent ev)) tr = true).
Proof.
  intros H pid ds fill rows e Hin HU.
  destruct (provider_event_in_run h _ _ _ _ _ _ _ H _ _ _ _ _ Hin)
    as (statePID & w1 & trF & _ & _ & Htr & Hrest).
  rewrite HU in Hrest. split.
  - intros Hok. rewrite (psDescriptorsFrom_ok shlex _ [] Hok) in Hrest.
    destruct Hrest as (out & err & EF & Hres).
    exists statePID, w1, out, err, trF. auto.
  - intros Hbad.
    destruct (psDescriptorsFrom_error shlex _ [] Hbad) as (d & e' & Hd & He & Hp).
    rewrite Hp in Hrest. destruct Hrest as (-> & ->).
    exists statePID, d, e'. rewrite List.app_nil_r in Htr. subst tr.
    repeat split; auto.
Qed.

Lemma Top_fallback_shlex_witness :
  (exists statePID w1 out err trF,
     trace fallbackRun
     = providerEvents statePID quotedDescriptors false [] (Some unknownDescriptor) ++ trF /\
     exec (machine hostFallback)
          (execPS (filter nonEmpty
                     (flat_map (fun d => fst (Shlex.Split d)) quotedDescriptors))) w1
     = ((out, err), trF, snd fallbackRun) /\
     result fallbackRun
     = match err with
       | Some e' => ([], Some (WrapError "executing ps(1) in the container: " e'))
       | None => (filterPS quotedDescriptors out, None)
       end)
  /\
  (exists statePID d e',
     In d brokenDescriptors /\ snd (Shlex.Split d) = Some e' /\
     result brokenRun = ([], Some (WrapError "parsing ps args: " e')) /\
     trace brokenRun
     = providerEvents statePID brokenDescriptors false [] (Some unknownDescriptor) /\
     forallb (fun ev => negb (isFallbackEvent ev)) (trace brokenRun) = true).
Proof.
  split.
  - refine (proj1 (Top_fallback_shlex (machine hostFallback) 3 _ Shlex.Split ctr
                     quotedDescriptors _ _ (run_eta fallbackRun) "4242" _ false []
                     unknownDescriptor _ _) _).
    + vm_compute. do 3 right. left. reflexivity.
    + reflexivity.
    + intros d [<-|[<-|[]]]; reflexivity.
  - refine (proj2 (Top_fallback_shlex (machine hostFallback) 3 _ Shlex.Split ctr
                     brokenDescriptors _ _ (run_eta brokenRun) "4242" _ false []
                     unknownDescriptor _ _) _).
    + vm_compute. do 3 right. left. reflexivity.
    + reflexivity.
    + exists "'time comm". split; [right; left; reflexivity|discriminate].
Defined.

(** C2, amended. [ErrUnknownDescriptor] is the only error of the structured
    provider that [Top] turns into the fallback path: for every other error
    the provider returns, [Top] fails with that error unchanged, the very
    value with no context wrapped around it, and makes no call of the
    fallback. *)
Theorem Top_provider_error_unchanged {W : Type} (h : Host W) (w w' : W)
  (shlex : string -> list string * option error)
  (c : Container) (descriptors : list string) res tr :
  exec h (Top shlex c descriptors) w = (res, tr, w') ->
  forall pid ds fill rows e,
  In (EvJoinNamespaceAndProcessInfo pid ds fill rows (Some e)) tr ->
  errors_Is e ErrUnknownDescriptor = false ->
  res = ([], Some e) /\
  (exists statePID, tr = providerEvents statePID descriptors fill rows (Some e)) /\
  forallb (fun ev => negb (isFallbackEvent ev)) tr = true.
Proof.
  intros H pid ds fill rows e Hin HU.
  destruct (provider_event_in_run h _ _ _ _ _ _ _ H _ _ _ _ _ Hin)
    as (statePID & w1 & trF & _ & _ & Htr & Hrest).
  rewrite HU in Hrest. destruct Hrest as (-> & ->).
  rewrite List.app_nil_r in Htr. subst tr.
  split; [reflexivity|]. split; [now exists statePID|reflexivity].
Qed.

Lemma Top_provider_error_unchanged_witness :
  result providerFailsRun = ([], Some EACCES) /\
  (exists statePID,
     trace providerFailsRun = providerEvents statePID ["pid"] false [] (Some EACCES)) /\
  forallb (fun ev => negb (isFallbackEvent ev)) (trace providerFailsRun) = true.
Proof.
  refine (Top_provider_error_unchanged (machine hostProviderFails) 3 _ Shlex.Split ctr
            ["pid"] _ _ (run_eta providerFailsRun) "4242" _ false [] EACCES _ _).
  - vm_compute. do 3 right. left. reflexivity.
  - reflexivity.
Defined.

(** C2 as stated fails where it says the error comes back wrapped: psgo
    answers "permission denied", which has no [ErrUnknownDescriptor] in its
    chain, and [Top] returns that very value, which is no [WrapError] around
    it whatever the prefix. *)
Lemma Top_provider_error_counterexample :
  errors_Is EACCES ErrUnknownDescriptor = false /\
  In (EvJoinNamespaceAndProcessInfo "4242" ["pid"] false [] (Some EACCES))
     (trace providerFailsRun) /\
  snd (result providerFailsRun) = Some EACCES /\
  forall prefix, snd (result providerFailsRun) <> Some (WrapError prefix EACCES).
Proof.
  split; [reflexivity|]. split; [vm_compute; auto|]. split; [reflexivity|].
  intros prefix. vm_compute. discriminate.
Qed.

(** C3. On the fallback path, when the command has run and delivered the
    lines [stdout], what [Top] returns on success is [stdout] without the
    lines that contain the descriptors joined by a space; so no returned line
    has the joined descriptors as a substring, and none is equal to them. *)
Theorem Top_fallback_filtered {W : Type} (h : Host W) (w w' : W)
  (shlex : string -> list string * option error)
  (c : Container) (descriptors : list string) lines err tr :
  exec h (Top shlex c descriptors) w = ((lines, err), tr, w') ->
  forall path args stdout errBuf rerr,
  In (EvCmdRun path args stdout errBuf rerr) tr ->
  (rerr = None ->
   err = None /\
   lines = filter (fun line => negb (Contains line (Join descriptors " "))) stdout) /\
  (forall line, In line lines ->
     In line stdout /\
     ~ (exists front back, line = (front ++ Join descriptors " " ++ back)%string) /\
     line <> Join descriptors " ").
Proof.
  intros H path args stdout errBuf rerr Hin.
  assert (Hres : (lines, err)
                 = match runError rerr errBuf with
                   | Some e' => ([], Some (WrapError "executing ps(1) in the container: " e'))
                   | None => (filterPS descriptors stdout, None)
                   end).
  { destruct (Top_cases h _ _ _ _ _ _ _ H)
      as [(_ & -> & _)|[(_ & st & e & _ & -> & _)|[(_ & st & _ & _ & -> & _)|
          (_ & statePID & fill0 & rows0 & perr0 & w1 & trF & Htr & Hrest)]]].
    - destruct Hin.
    - destruct Hin as [Hin|[]]. discriminate.
    - destruct Hin as [Hin|[]]. discriminate.
    - rewrite Htr in Hin. unfold providerEvents in Hin. cbn in Hin.
      destruct Hin as [Hin|[Hin|[Hin|[Hin|Hin]]]]; try discriminate.
      destruct perr0 as [e|]; [|destruct Hrest as (-> & _); destruct Hin].
      destruct (errors_Is e ErrUnknownDescriptor);
        [|destruct Hrest as (-> & _); destruct Hin].
      destruct (psDescriptorsFrom shlex descriptors []) as [psD [pe|]];
        [destruct Hrest as (-> & _); destruct Hin|].
      destruct Hrest as (out & ferr & EF & Hres).
      destruct (execPS_cmdRun h _ _ _ _ _ _ EF _ _ _ _ _ Hin) as (-> & ->).
      exact Hres. }
  rewrite filterPS_filter in Hres. split.
  - intros ->. cbn in Hres. injection Hres as -> ->. auto.
  - intros line Hl. destruct (runError rerr errBuf).
    + injection Hres as -> ->. destruct Hl.
    + injection Hres as -> ->. apply filter_In in Hl as [Hl Hc].
      apply negb_true_iff in Hc. split; [exact Hl|split].
      * intros Hsub. apply Contains_spec in Hsub. congruence.
      * intros ->. rewrite Contains_self in Hc. discriminate.
Qed.

Lemma Top_fallback_filtered_witness :
  (snd (result timeCommRun) = None /\
   fst (result timeCommRun)
   = filter (fun line => negb (Contains line (Join timeComm " "))) psOutput) /\
  (forall line, In line (fst (result timeCommRun)) ->
     In line psOutput /\
     ~ (exists front back, line = (front ++ Join timeComm " " ++ back)%string) /\
     line <> Join timeComm " ").
Proof.
  destruct (Top_fallback_filtered (machine hostFallback) 3 (snd timeCommRun)
              Shlex.Split ctr timeComm (fst (result timeCommRun))
              (snd (result timeCommRun)) (trace timeCommRun) eq_refl
              "/proc/self/fd/8" dynamicArgs psOutput EmptyString None) as [H1 H2].
  - vm_compute. auto 30.
  - split; [exact (H1 eq_refl)|exact H2].
Defined.

Example timeComm_output :
  fst (result timeCommRun) = ["    TIME COMMAND"; "00:00:00 sleep"].
Proof. reflexivity. Qed.

(** ** The fallback executor *)

(** C4. In every run of [execPS] that reaches [cmd.Run()] and gets an error
    from it: when the error holds an [*exec.ExitError] and stderr is not
    empty, [execPS] returns the error whose text is "ps failed with exit
    code", the exit code, and the stderr text as it is; when stderr is empty,
    or the error holds no [*exec.ExitError] (the child did not start),
    [execPS] returns "could not execute ps in the container" wrapped around
    the error of [Run], with no other text. *)
Theorem execPS_run_failure {W : Type} (h : Host W) (w w' : W)
  (psArgs : list string) out err tr :
  exec h (execPS psArgs) w = ((out, err), tr, w') ->
  forall path args stdout errBuf e,
  In (EvCmdRun path args stdout errBuf (Some e)) tr ->
  (forall code, errors_As_ExitError e = Some code -> errBuf <> EmptyString ->
     err = Some (ErrorString ("ps failed with exit code " ++ Itoa code
                              ++ ": " ++ errBuf)%string)) /\
  (errors_As_ExitError e = None \/ errBuf = EmptyString ->
     err = Some (WrapError "could not execute ps in the container: " e)).
Proof.
  intros H path args stdout errBuf e Hin.
  destruct (execPS_cmdRun h _ _ _ _ _ _ H _ _ _ _ _ Hin) as (_ & ->).
  unfold runError. split.
  - intros code -> Hne. destruct errBuf; [contradiction|reflexivity].
  - intros [->| ->]; [reflexivity|]. now destruct (errors_As_ExitError e).
Qed.

Lemma execPS_run_failure_witness :
  snd (result psFailsRun)
  = Some (ErrorString "ps failed with exit code 1: error: garbage option") /\
  snd (result psKilledRun)
  = Some (WrapError "could not execute ps in the container: " (ExitError (-1))).
Proof.
  split.
  - refine (proj1 (execPS_run_failure (machine hostPsFails) 3 _ ["time"; "comm"] _ _ _
                     (run_eta psFailsRun) "/proc/self/fd/8" dynamicArgs []
                     "error: garbage option" (ExitError 1) _) 1 eq_refl _).
    + vm_compute. auto 30.
    + discriminate.
  - refine (proj2 (execPS_run_failure (machine hostPsKilled) 3 _ ["time"; "comm"] _ _ _
                     (run_eta psKilledRun) "/proc/self/fd/8" dynamicArgs []
                     EmptyString (ExitError (-1)) _)
                  (or_intror eq_refl)).
    vm_compute. auto 30.
Defined.






Example execRun_preload :
  reportedLibs (Split lddOutput LF)
  = ["/lib64/libprocps.so.8"; "/lib64/libsystemd.so.0"; "/lib64/libc.so.6"] /\
  libOpens (afterLdd (trace execRun))
  = [("/lib64/libprocps.so.8", 6, None);
     ("/lib64/libsystemd.so.0", -1, Some ENOENT);
     ("/lib64/libc.so.6", 7, None)] /\
  NoDup (okFDs (libOpens (afterLdd (trace execRun)))).
Proof.
  split; [reflexivity|]. split; [reflexivity|].
  vm_compute. repeat constructor; simpl; intuition discriminate.
Qed.

(** C6. In every run of [execPS] where [ldd] fails, the run does not end
    there: the next call reads the PID, and the goroutine is run on the alias
    of ps followed by the caller's tokens.  Nothing is opened for preloading;
    if the command is run, it is the alias of ps with the arguments [ps] and
    the tokens; and it is run whenever no namespace step fails. *)
Theorem execPS_ldd_failure_not_fatal {W : Type} (h : Host W) (w w' : W)
  (psArgs : list string) res tr :
  exec h (execPS psArgs) w = (res, tr, w') ->
  forall name arg output e,
  In (EvCommandOutput name arg output (Some e)) tr ->
  exists psPath psFD pid w1 trG,
    In (EvUnixOpen psPath O_PATH 0 psFD None) tr /\
    arg = [fdPath psFD] /\
    afterLdd tr = EvContainerPID pid :: trG /\
    exec h (execPS_func2 pid (fdPath psFD :: psArgs)) w1 = (res, trG, w') /\
    forallb (fun ev => negb (isUnixOpen ev)) (afterLdd tr) = true /\
    (forall path args stdout errBuf rerr,
       In (EvCmdRun path args stdout errBuf rerr) tr ->
       path = fdPath psFD /\ args = "ps" :: psArgs) /\
    (nsFailed tr = false ->
     exists stdout errBuf rerr,
       In (EvCmdRun (fdPath psFD) ("ps" :: psArgs) stdout errBuf rerr) tr).
Proof.
  intros H name arg output e Hldd.
  destruct (execPS_run h _ _ _ _ _ H _ _ _ _ Hldd)
    as (psPath & psFD & w1 & _ & -> & Htr & pid & w2 & trG & Ha & EG).
  destruct res as [rout rerr0].
  destruct (func2_run h _ _ _ _ _ _ _ EG) as (Hg & HrunG & Hlive & _).
  exists psPath, psFD, pid, w2, trG.
  split; [rewrite Htr; cbn; auto|].
  split; [reflexivity|]. split; [exact Ha|]. split; [exact EG|].
  split; [rewrite Ha; cbn [forallb isUnixOpen negb andb]; now apply goroutine_no_open|].
  split.
  - intros path args stdout errBuf rerr Hrun.
    rewrite Htr, Ha in Hrun. cbn in Hrun.
    destruct Hrun as [Hrun|[Hrun|[Hrun|[Hrun|[Hrun|Hrun]]]]]; try discriminate.
    apply HrunG in Hrun as (-> & -> & _). auto.
  - intros Hns. rewrite Htr, Ha in Hns. cbn in Hns.
    destruct (Hlive Hns) as (stdout & errBuf & rerr & Hin).
    exists stdout, errBuf, rerr. rewrite Htr, Ha. cbn. auto 10.
Qed.

Lemma execPS_ldd_failure_not_fatal_witness :
  exists psPath psFD pid w1 trG,
    In (EvUnixOpen psPath O_PATH 0 psFD None) (trace noLddRun) /\
    ["/proc/self/fd/5"] = [fdPath psFD] /\
    afterLdd (trace noLddRun) = EvContainerPID pid :: trG /\
    exec (machine hostNoLdd) (execPS_func2 pid (fdPath psFD :: ["time"; "comm"])) w1
    = (result noLddRun, trG, snd noLddRun) /\
    forallb (fun ev => negb (isUnixOpen ev)) (afterLdd (trace noLddRun)) = true /\
    (forall path args stdout errBuf rerr,
       In (EvCmdRun path args stdout errBuf rerr) (trace noLddRun) ->
       path = fdPath psFD /\ args = "ps" :: ["time"; "comm"]) /\
    exists stdout errBuf rerr,
      In (EvCmdRun (fdPath psFD) ("ps" :: ["time"; "comm"]) stdout errBuf rerr)
         (trace noLddRun).
Proof.
  destruct (execPS_ldd_failure_not_fatal (machine hostNoLdd) 3 _ ["time"; "comm"] _ _
              (run_eta noLddRun) "ldd" ["/proc/self/fd/5"] EmptyString
              (ErrorString "exec: ldd: executable file not found in $PATH"))
    as (psPath & psFD & pid & w1 & trG & Hps & Harg & Hafter & Hgo & Hnone & Honly & Hrun).
  - vm_compute. auto 30.
  - exists psPath, psFD, pid, w1, trG. repeat (split; [assumption|]).
    apply Hrun. reflexivity.
Defined.

(** C10. In every run of [execPS] where [ldd] succeeded, the two kinds of
    open are treated differently.  A failed open of the linker ends the run:
    [execPS] returns that error, the failed open is the last call made, and
    the command is not run.  As long as no open of the linker fails, the run
    goes on past the loop to the PID read and the goroutine, whichever opens
    of libraries failed; when no namespace step fails the command is run, and
    its preload argument holds the aliases of the library opens that
    succeeded and nothing for those that failed. *)
Theorem execPS_open_failures {W : Type} (h : Host W) (w w' : W)
  (psArgs : list string) res tr :
  exec h (execPS psArgs) w = (res, tr, w') ->
  forall name arg output,
  In (EvCommandOutput name arg output None) tr ->
  (forall path fd e,
     In (EvUnixOpen path (Z.lor O_PATH O_CLOEXEC) 0 fd (Some e)) tr ->
     res = ([], Some e) /\
     (exists front,
        tr = front ++ [EvUnixOpen path (Z.lor O_PATH O_CLOEXEC) 0 fd (Some e)]) /\
     forall path' args stdout errBuf rerr,
       ~ In (EvCmdRun path' args stdout errBuf rerr) tr)
  /\
  (openErrors (linkerOpens tr) = [] ->
   (exists pid trL trG,
      afterLdd tr = trL ++ EvContainerPID pid :: trG /\
      forallb isUnixOpen trL = true /\ forallb isGoroutineEvent trG = true) /\
   (nsFailed tr = false ->
    exists path args stdout errBuf rerr,
      In (EvCmdRun path args stdout errBuf rerr) tr /\
      nth 4 args EmptyString
      = Join (map fdPath (okFDs (libOpens (afterLdd tr)))) " ")).
Proof.
  intros H name arg output Hldd.
  destruct (execPS_run h _ _ _ _ _ H _ _ _ _ Hldd)
    as (psPath & psFD & w1 & _ & -> & Htr & Hrest).
  destruct Hrest as (preload0 & linkerPath & lerr & trL & w2 & EL & Hrest).
  destruct (lddLines_run h _ _ _ _ _ _ _ _ _ EL) as (Hl & Hpre & Hlerr).
  destruct res as [rout rerr0].
  destruct lerr as [le|].
  - (* the loop returned from inside *)
    destruct Hrest as (Ha & Hres).
    destruct Hlerr as (front & lp & lfd & HtrL & Hfront).
    split.
    + intros path fd e Hin.
      rewrite Htr, Ha, HtrL in Hin. cbn in Hin.
      destruct Hin as [Hin|[Hin|[Hin|[Hin|Hin]]]]; try discriminate.
      apply in_app_or in Hin as [Hin|[Hin|[]]].
      * apply failed_linker_open_in in Hin. rewrite Hfront in Hin. destruct Hin.
      * injection Hin as <- <- <-.
        split; [exact Hres|]. split.
        -- rewrite Htr, Ha, HtrL. eexists (_ :: _ :: _ :: _ :: front). reflexivity.
        -- intros path' args stdout errBuf rerr Hrun.
           rewrite Htr, Ha in Hrun. cbn in Hrun.
           destruct Hrun as [Hrun|[Hrun|[Hrun|[Hrun|Hrun]]]]; try discriminate.
           rewrite forallb_forall in Hl. apply Hl in Hrun. discriminate.
    + intros Hnone. exfalso.
      assert (Hin : In le (openErrors (linkerOpens tr))).
      { apply (failed_linker_open_in lp 0 lfd).
        rewrite Htr, Ha, HtrL. cbn. do 4 right. apply in_or_app. right. now left. }
      rewrite Hnone in Hin. destruct Hin.
  - destruct Hrest as (pid & w3 & trG & Ha & EG).
    destruct Hlerr as (_ & Hnone & _).
    destruct (func2_run h _ _ _ _ _ _ _ EG) as (Hg & HrunG & Hlive & _).
    split.
    + intros path fd e Hin. exfalso.
      rewrite Htr, Ha in Hin. cbn in Hin.
      destruct Hin as [Hin|[Hin|[Hin|[Hin|Hin]]]]; try discriminate.
      apply in_app_or in Hin as [Hin|[Hin|Hin]]; try discriminate.
      * apply failed_linker_open_in in Hin. rewrite Hnone in Hin. destruct Hin.
      * rewrite forallb_forall in Hg. apply Hg in Hin. discriminate.
    + intros _. split; [exists pid, trL, trG; auto|].
      intros Hns.
      assert (HnsG : nsFailed trG = false).
      { rewrite Htr, Ha in Hns. cbn [app] in Hns.
        change (nsFailed (?a :: ?b :: ?c :: ?d :: ?l)) with (nsFailed l) in Hns.
        rewrite nsFailed_app in Hns. apply orb_false_elim in Hns as [_ Hns].
        exact Hns. }
      destruct (Hlive HnsG) as (stdout & errBuf & rerr & Hin).
      do 5 eexists. split.
      * rewrite Htr, Ha. cbn. do 4 right. apply in_or_app. right. right. exact Hin.
      * cbn [nth tl]. rewrite Hpre. unfold libOpens. rewrite Ha, opensWith_app.
        rewrite (opensWith_no_open O_PATH (EvContainerPID pid :: trG)).
        -- now rewrite List.app_nil_r.
        -- cbn [forallb isUnixOpen negb andb]. now apply goroutine_no_open.
Qed.

Lemma execPS_open_failures_witness :
  (result noLinkerRun = ([], Some ENOENT) /\
   (exists front,
      trace noLinkerRun
      = front ++ [EvUnixOpen "/lib64/ld-linux-x86-64.so.2" (Z.lor O_PATH O_CLOEXEC) 0
                             (-1) (Some ENOENT)]) /\
   forall path' args stdout errBuf rerr,
     ~ In (EvCmdRun path' args stdout errBuf rerr) (trace noLinkerRun))
  /\
  (In (EvUnixOpen "/lib64/libsystemd.so.0" O_PATH 0 (-1) (Some ENOENT)) (trace execRun) /\
   exists path args stdout errBuf rerr,
     In (EvCmdRun path args stdout errBuf rerr) (trace execRun) /\
     nth 4 args EmptyString = "/proc/self/fd/6 /proc/self/fd/7").
Proof.
  split.
  - refine (proj1 (execPS_open_failures (machine hostNoLinker) 3 _ ["time"; "comm"] _ _
                     (run_eta noLinkerRun) "ldd" ["/proc/self/fd/5"] lddOutput _)
                  "/lib64/ld-linux-x86-64.so.2" (-1) ENOENT _).
    + vm_compute. auto 30.
    + vm_compute. auto 30.
  - split; [vm_compute; auto 30|].
    refine (proj2 (proj2 (execPS_open_failures (machine hostFallback) 3 _ ["time"; "comm"]
                            _ _ (run_eta execRun) "ldd" ["/proc/self/fd/5"] lddOutput _)
                         eq_refl) eq_refl).
    vm_compute. auto 30.
Defined.

(** * More of the code *)

(** X1. Every run of [GetContainerPidInformation] makes three calls: it
    reads the PID, asks whether the caller is rootless, and calls psgo with
    the PID in decimal, the descriptors as given and [FillMappings] as just
    answered.  When psgo succeeds the result is one line per row, in order,
    the columns of the row joined by tabs; when it fails, the error comes
    back unchanged with no line. *)
Theorem GetContainerPidInformation_run {W : Type} (h : Host W) (w w' : W)
  (descriptors : list string) res tr :
  exec h (GetContainerPidInformation descriptors) w = (res, tr, w') ->
  exists statePID fill rows perr,
    tr = [EvContainerPID statePID; EvIsRootless fill;
          EvJoinNamespaceAndProcessInfo (Itoa statePID) descriptors fill rows perr] /\
    res = match perr with
          | None => (map (fun out => Join out TAB) rows, None)
          | Some e => ([], Some e)
          end /\
    (perr = None -> List.length (fst res) = List.length rows).
Proof.
  unfold GetContainerPidInformation. intros H.
  step h H. step h H. step h H. destruct p as [rows [e|]]; finish H.
  - exists z, b, rows, (Some e). repeat split. discriminate.
  - exists z, b, rows, None. rewrite rows_joined.
    repeat split. intros _. cbn. apply length_map.
Qed.

Lemma GetContainerPidInformation_run_witness :
  exists statePID fill rows perr,
    trace pidInfoRun
    = [EvContainerPID statePID; EvIsRootless fill;
       EvJoinNamespaceAndProcessInfo (Itoa statePID) ["pid"; "comm"] fill rows perr] /\
    result pidInfoRun
    = match perr with
      | None => (map (fun out => Join out TAB) rows, None)
      | Some e => ([], Some e)
      end /\
    (perr = None -> List.length (fst (result pidInfoRun)) = List.length rows).
Proof.
  exact (GetContainerPidInformation_run (machine hostRows) 3 _ ["pid"; "comm"] _ _
           (run_eta pidInfoRun)).
Defined.

(** X2. When the structured provider succeeds, [Top] returns its rows, one
    line per row with the columns joined by tabs, and the provider call is
    the last call of the run: nothing of the fallback is called, no process
    is started. *)
Theorem Top_structured_success {W : Type} (h : Host W) (w w' : W)
  (shlex : string -> list string * option error)
  (c : Container) (descriptors : list string) res tr :
  exec h (Top shlex c descriptors) w = (res, tr, w') ->
  forall pid ds fill rows,
  In (EvJoinNamespaceAndProcessInfo pid ds fill rows None) tr ->
  res = (map (fun out => Join out TAB) rows, None) /\
  (exists statePID, tr = providerEvents statePID descriptors fill rows None) /\
  forallb (fun ev => negb (isFallbackEvent ev)) tr = true.
Proof.
  intros H pid ds fill rows Hin.
  destruct (provider_event_in_run h _ _ _ _ _ _ _ H _ _ _ _ _ Hin)
    as (statePID & w1 & trF & _ & _ & Htr & -> & ->).
  rewrite List.app_nil_r in Htr. subst tr.
  split; [reflexivity|]. split; [now exists statePID|reflexivity].
Qed.

Lemma Top_structured_success_witness :
  result rowsRun = (map (fun out => Join out TAB) psgoRows, None) /\
  (exists statePID, trace rowsRun = providerEvents statePID ["pid,comm"] false psgoRows None) /\
  forallb (fun ev => negb (isFallbackEvent ev)) (trace rowsRun) = true.
Proof.
  refine (Top_structured_success (machine hostRows) 3 _ Shlex.Split ctr ["pid,comm"] _ _
            (run_eta rowsRun) "4242" _ false psgoRows _).
  vm_compute. do 3 right. left. reflexivity.
Defined.

(** X3. [Top] never returns lines together with an error: whenever the
    error is not nil, the slice is empty, also when [execPS] had delivered
    output before it failed. *)
Theorem Top_no_partial_results {W : Type} (h : Host W) (w w' : W)
  (shlex : string -> list string * option error)
  (c : Container) (descriptors : list string) lines err tr :
  exec h (Top shlex c descriptors) w = ((lines, err), tr, w') ->
  err <> None -> lines = [].
Proof.
  intros H Herr.
  destruct (Top_cases h _ _ _ _ _ _ _ H)
    as [(_ & _ & _ & E)|[(_ & st & e & _ & _ & E)|[(_ & st & _ & _ & _ & E)|
        (_ & statePID & fill & rows & perr & w1 & trF & _ & Hrest)]]];
    try (injection E as -> ->; reflexivity).
  destruct perr as [e|].
  - destruct (errors_Is e ErrUnknownDescriptor).
    + destruct (psDescriptorsFrom shlex descriptors []) as [psD [pe|]].
      * destruct Hrest as (_ & E). now injection E as -> ->.
      * destruct Hrest as (out & ferr & _ & E).
        destruct ferr; injection E as -> ->; [reflexivity|contradiction].
    + destruct Hrest as (_ & E). now injection E as -> ->.
  - destruct Hrest as (_ & E). injection E as -> ->. contradiction.
Qed.

Lemma Top_no_partial_results_witness : fst (result stoppedRun) = [].
Proof.
  refine (Top_no_partial_results (machine hostStopped) 3 (snd stoppedRun) Shlex.Split ctr
            ["pid"] (fst (result stoppedRun)) (snd (result stoppedRun)) (trace stoppedRun)
            eq_refl _).
  discriminate.
Defined.

Lemma psDescriptorsFrom_all_ok (shlex : string -> list string * option error)
  (descriptors acc tokens : list string) :
  psDescriptorsFrom shlex descriptors acc = (tokens, None) ->
  forall d, In d descriptors -> snd (shlex d) = None.
Proof.
  intros Hp d Hd. destruct (snd (shlex d)) as [e|] eqn:E; [|reflexivity].
  destruct (psDescriptorsFrom_error shlex descriptors acc) as (d1 & e1 & _ & _ & Hbad).
  - exists d. split; [exact Hd|]. rewrite E. discriminate.
  - rewrite Hp in Hbad. discriminate.
Qed.

(** X4. Every call of the fallback in a run of [Top] (pipe, search
    for ps, opens, [ldd], namespace steps, the command) comes after a call of
    the structured provider that failed with an error holding
    [ErrUnknownDescriptor]: the trace is a front without any call of the
    fallback, that provider call, and a back that holds the call.  It is
    made only when every descriptor tokenizes. *)
Theorem Top_fallback_only_after_unknown {W : Type} (h : Host W) (w w' : W)
  (shlex : string -> list string * option error)
  (c : Container) (descriptors : list string) res tr :
  exec h (Top shlex c descriptors) w = (res, tr, w') ->
  forall ev, In ev tr -> isFallbackEvent ev = true ->
  (exists front pid ds fill rows e back,
     tr = front ++ EvJoinNamespaceAndProcessInfo pid ds fill rows (Some e) :: back /\
     errors_Is e ErrUnknownDescriptor = true /\
     forallb (fun ev' => negb (isFallbackEvent ev')) front = true /\
     In ev back) /\
  (forall d, In d descriptors -> snd (shlex d) = None).
Proof.
  intros H ev Hin Hf.
  destruct (Top_cases h _ _ _ _ _ _ _ H)
    as [(_ & -> & _)|[(_ & st & e & _ & -> & _)|[(_ & st & _ & _ & -> & _)|
        (_ & statePID & fill & rows & perr & w1 & trF & Htr & Hrest)]]].
  - destruct Hin.
  - destruct Hin as [<-|[]]. discriminate.
  - destruct Hin as [<-|[]]. discriminate.
  - assert (HinF : In ev trF).
    { rewrite Htr in Hin. unfold providerEvents in Hin. cbn in Hin.
      destruct Hin as [<-|[<-|[<-|[<-|Hin]]]]; try discriminate. exact Hin. }
    destruct perr as [e|]; [|destruct Hrest as (-> & _); destruct HinF].
    destruct (errors_Is e ErrUnknownDescriptor) eqn:EU;
      [|destruct Hrest as (-> & _); destruct HinF].
    destruct (psDescriptorsFrom shlex descriptors []) as [psD [pe|]] eqn:EP;
      [destruct Hrest as (-> & _); destruct HinF|].
    split.
    + exists [EvContainerState ContainerStateRunning None; EvContainerPID statePID;
              EvIsRootless fill],
             (Itoa statePID), (psgoDescriptorsOf descriptors), fill, rows, e, trF.
      split; [rewrite Htr; reflexivity|].
      split; [exact EU|]. split; [reflexivity|exact HinF].
    + exact (psDescriptorsFrom_all_ok shlex _ _ _ EP).
Qed.

Lemma Top_fallback_only_after_unknown_witness :
  (exists front pid ds fill rows e back,
     trace fallbackRun
     = front ++ EvJoinNamespaceAndProcessInfo pid ds fill rows (Some e) :: back /\
     errors_Is e ErrUnknownDescriptor = true /\
     forallb (fun ev' => negb (isFallbackEvent ev')) front = true /\
     In (EvOsPipe None) back) /\
  (forall d, In d quotedDescriptors -> snd (Shlex.Split d) = None).
Proof.
  refine (Top_fallback_only_after_unknown (machine hostFallback) 3 _ Shlex.Split ctr
            quotedDescriptors _ _ (run_eta fallbackRun) (EvOsPipe None) _ eq_refl).
  vm_compute. do 4 right. left. reflexivity.
Defined.

(** X5. When the state lookup of a container with a cgroup fails, [Top]
    returns that error wrapped in "unable to look up state for" and the
    container's id; the lookup is the only call made. *)
Theorem Top_state_lookup_error {W : Type} (h : Host W) (w w1 : W)
  (shlex : string -> list string * option error)
  (c : Container) (descriptors : list string) (st : ContainerStatus) (e : error) :
  config_NoCgroups c = false ->
  h _ ContainerState w = ((st, Some e), w1) ->
  exec h (Top shlex c descriptors) w
  = (([], Some (WrapError ("unable to look up state for " ++ ID c ++ ": ")%string e)),
     [EvContainerState st (Some e)], w1).
Proof.
  intros Hc Hs. unfold Top. rewrite Hc. cbn [exec bind call]. rewrite Hs. reflexivity.
Qed.

Lemma Top_state_lookup_error_witness :
  exec (machine hostStateFails) (Top Shlex.Split ctr ["pid"]) 3
  = (([], Some (WrapError "unable to look up state for c0ffee: "
                          (ErrorString "no such container"))),
     [EvContainerState (ContainerStateOther 0) (Some (ErrorString "no such container"))],
     3).
Proof.
  exact (Top_state_lookup_error (machine hostStateFails) 3 3 Shlex.Split ctr ["pid"]
           (ContainerStateOther 0) (ErrorString "no such container") eq_refl eq_refl).
Defined.

(** What [Top] returns once the command of the fallback has run. *)
Lemma Top_after_cmdRun {W : Type} (h : Host W) (w w' : W)
  (shlex : string -> list string * option error)
  (c : Container) (descriptors : list string) res tr :
  exec h (Top shlex c descriptors) w = (res, tr, w') ->
  forall path args stdout errBuf rerr,
  In (EvCmdRun path args stdout errBuf rerr) tr ->
  res = match runError rerr errBuf with
        | Some e' => ([], Some (WrapError "executing ps(1) in the container: " e'))
        | None => (filterPS descriptors stdout, None)
        end.
Proof.
  intros H path args stdout errBuf rerr Hin.
  destruct (Top_cases h _ _ _ _ _ _ _ H)
    as [(_ & -> & _)|[(_ & st & e & _ & -> & _)|[(_ & st & _ & _ & -> & _)|
        (_ & statePID & fill0 & rows0 & perr0 & w1 & trF & Htr & Hrest)]]].
  - destruct Hin.
  - destruct Hin as [Hin|[]]. discriminate.
  - destruct Hin as [Hin|[]]. discriminate.
  - rewrite Htr in Hin. unfold providerEvents in Hin. cbn in Hin.
    destruct Hin as [Hin|[Hin|[Hin|[Hin|Hin]]]]; try discriminate.
    destruct perr0 as [e|]; [|destruct Hrest as (-> & _); destruct Hin].
    destruct (errors_Is e ErrUnknownDescriptor);
      [|destruct Hrest as (-> & _); destruct Hin].
    destruct (psDescriptorsFrom shlex descriptors []) as [psD [pe|]];
      [destruct Hrest as (-> & _); destruct Hin|].
    destruct Hrest as (out & ferr & EF & Hres).
    destruct (execPS_cmdRun h _ _ _ _ _ _ EF _ _ _ _ _ Hin) as (-> & ->).
    exact Hres.
Qed.

(** X6. When ps ends with an [*exec.ExitError], the error [Top] returns
    holds it in its chain only if stderr was empty: with text on stderr the
    exit code is printed into the message and [errors.As] finds no
    [*exec.ExitError] any more. *)
Theorem Top_exit_status_in_chain {W : Type} (h : Host W) (w w' : W)
  (shlex : string -> list string * option error)
  (c : Container) (descriptors : list string) lines err tr :
  exec h (Top shlex c descriptors) w = ((lines, err), tr, w') ->
  forall path args stdout errBuf e code,
  In (EvCmdRun path args stdout errBuf (Some e)) tr ->
  errors_As_ExitError e = Some code ->
  exists err', err = Some err' /\
    (errBuf <> EmptyString -> errors_As_ExitError err' = None) /\
    (errBuf = EmptyString -> errors_As_ExitError err' = Some code).
Proof.
  intros H path args stdout errBuf e code Hin Hcode.
  pose proof (Top_after_cmdRun h _ _ _ _ _ _ _ H _ _ _ _ _ Hin) as Hres.
  unfold runError in Hres. rewrite Hcode in Hres.
  destruct errBuf as [|ch rest]; injection Hres as -> ->; eexists;
    (split; [reflexivity|split; intros Hb]).
  - now elim Hb.
  - exact Hcode.
  - reflexivity.
  - discriminate Hb.
Qed.

Lemma Top_exit_status_in_chain_witness :
  (exists err', snd (result topPsFailsRun) = Some err' /\
                errors_As_ExitError err' = None) /\
  (exists err', snd (result topPsKilledRun) = Some err' /\
                errors_As_ExitError err' = Some (-1)).
Proof.
  split.
  - destruct (Top_exit_status_in_chain (machine hostPsFails) 3 (snd topPsFailsRun)
                Shlex.Split ctr timeComm (fst (result topPsFailsRun))
                (snd (result topPsFailsRun)) (trace topPsFailsRun) eq_refl
                "/proc/self/fd/8" dynamicArgs [] "error: garbage option"
                (ExitError 1) 1) as (err' & He & Hlost & _).
    + vm_compute. auto 30.
    + reflexivity.
    + exists err'. split; [exact He|]. apply Hlost. discriminate.
  - destruct (Top_exit_status_in_chain (machine hostPsKilled) 3 (snd topPsKilledRun)
                Shlex.Split ctr timeComm (fst (result topPsKilledRun))
                (snd (result topPsKilledRun)) (trace topPsKilledRun) eq_refl
                "/proc/self/fd/8" dynamicArgs [] EmptyString
                (ExitError (-1)) (-1)) as (err' & He & _ & Hkept).
    + vm_compute. auto 30.
    + reflexivity.
    + exists err'. split; [exact He|]. apply Hkept. reflexivity.
Defined.

(** A run of [execPS] that has asked [ldd]: the opens of the loop, then
    either the return from inside the loop or the PID read and the
    goroutine on the argument vector built. *)
Lemma execPS_after_ldd {W : Type} (h : Host W) (w w' : W)
  (psArgs : list string) out err tr :
  exec h (execPS psArgs) w = ((out, err), tr, w') ->
  forall name arg output lddErr,
  In (EvCommandOutput name arg output lddErr) tr ->
  exists psPath psFD trL rest,
    tr = [EvOsPipe None; EvLookPath "ps" psPath None;
          EvUnixOpen psPath O_PATH 0 psFD None;
          EvCommandOutput "ldd" [fdPath psFD] output lddErr] ++ trL ++ rest /\
    afterLdd tr = trL ++ rest /\
    forallb isUnixOpen trL = true /\
    (lddErr <> None -> trL = []) /\
    ((exists front path fd e,
        lddErr = None /\ rest = [] /\ out = [] /\ err = Some e /\
        trL = front ++ [EvUnixOpen path (Z.lor O_PATH O_CLOEXEC) 0 fd (Some e)])
     \/
     (exists pid trG w3 middle,
        rest = EvContainerPID pid :: trG /\
        exec h (execPS_func2 pid (middle ++ fdPath psFD :: psArgs)) w3
        = ((out, err), trG, w') /\
        match lddErr with
        | Some _ => middle = []
        | None =>
            middle = [linkerPathOf trL; "--argv0"; "ps"; "--preload";
                      Join (map fdPath (okFDs (libOpens trL))) " "] /\
            openErrors (linkerOpens trL) = [] /\
            map openPath (linkerOpens trL) = reportedLinkers (Split output LF)
        end)).
Proof.
  intros H name arg output lddErr Hldd.
  destruct (execPS_run h _ _ _ _ _ H _ _ _ _ Hldd)
    as (psPath & psFD & w1 & _ & _ & Htr & Hrest).
  exists psPath, psFD.
  destruct lddErr as [le|].
  - destruct Hrest as (pid & w2 & trG & Ha & EG).
    exists [], (EvContainerPID pid :: trG). rewrite Ha in Htr.
    split; [exact Htr|]. split; [exact Ha|]. split; [reflexivity|].
    split; [reflexivity|]. right. exists pid, trG, w2, []. auto.
  - destruct Hrest as (preload & linkerPath & lerr & trL & w2 & EL & Hrest).
    destruct (lddLines_run h _ _ _ _ _ _ _ _ _ EL) as (Hl & Hpre & Hlerr).
    destruct lerr as [e|].
    + destruct Hrest as (Ha & Hres). injection Hres as -> ->.
      destruct Hlerr as (front & lp & lfd & HtrL & _).
      exists trL, []. rewrite List.app_nil_r. rewrite Ha in Htr.
      split; [exact Htr|]. split; [exact Ha|]. split; [exact Hl|].
      split; [intros Hn; now elim Hn|].
      left. exists front, lp, lfd, e. auto.
    + destruct Hrest as (pid & w3 & trG & Ha & EG).
      destruct Hlerr as (_ & Hnone & Hlinker).
      exists trL, (EvContainerPID pid :: trG). rewrite Ha in Htr.
      split; [exact Htr|]. split; [exact Ha|]. split; [exact Hl|].
      split; [intros Hn; now elim Hn|].
      right. exists pid, trG, w3.
      exists [linkerPathOf trL; "--argv0"; "ps"; "--preload";
              Join (map fdPath (okFDs (libOpens trL))) " "].
      split; [reflexivity|]. split.
      * unfold linkerPathOf. rewrite <- Hlinker. cbn in Hpre. rewrite <- Hpre. exact EG.
      * split; [reflexivity|]. split; [exact Hnone|].
        exact (lddLines_linkers h _ _ _ _ _ _ _ _ EL).
Qed.

(** X7. A run of [execPS] that never asks [ldd] has failed at the pipe,
    at the search for ps or at the open of ps: it returns no line and the
    error of that call unchanged, and that call is the last one made. *)
Theorem execPS_early_failure {W : Type} (h : Host W) (w w' : W)
  (psArgs : list string) out err tr :
  exec h (execPS psArgs) w = ((out, err), tr, w') ->
  (forall name arg output lddErr, ~ In (EvCommandOutput name arg output lddErr) tr) ->
  exists e,
    out = [] /\ err = Some e /\
    (tr = [EvOsPipe (Some e)]
     \/ (exists psPath, tr = [EvOsPipe None; EvLookPath "ps" psPath (Some e)])
     \/ (exists psPath fd,
           tr = [EvOsPipe None; EvLookPath "ps" psPath None;
                 EvUnixOpen psPath O_PATH 0 fd (Some e)])).
Proof.
  intros H Hno.
  destruct (execPS_cases h _ _ _ _ _ _ H) as [Hearly|(n & a & o & l & Hin)].
  - exact Hearly.
  - elim (Hno _ _ _ _ Hin).
Qed.

Lemma execPS_early_failure_witness :
  exists e,
    fst (result noPsRun) = [] /\ snd (result noPsRun) = Some e /\
    (trace noPsRun = [EvOsPipe (Some e)]
     \/ (exists psPath, trace noPsRun = [EvOsPipe None; EvLookPath "ps" psPath (Some e)])
     \/ (exists psPath fd,
           trace noPsRun = [EvOsPipe None; EvLookPath "ps" psPath None;
                            EvUnixOpen psPath O_PATH 0 fd (Some e)])).
Proof.
  refine (execPS_early_failure (machine hostNoPs) 3 (snd noPsRun) ["time"; "comm"]
            (fst (result noPsRun)) (snd (result noPsRun)) (trace noPsRun) eq_refl _).
  intros name arg output lddErr. vm_compute. intuition discriminate.
Defined.

Lemma runError_None rerr errBuf : runError rerr errBuf = None <-> rerr = None.
Proof.
  unfold runError. destruct rerr as [e|]; [|split; reflexivity].
  destruct (errors_As_ExitError e), errBuf; split; discriminate.
Qed.

(** X8. [execPS] returns a nil error exactly when the command has been
    run and [cmd.Run()] returned nil. *)
Theorem execPS_success_iff {W : Type} (h : Host W) (w w' : W)
  (psArgs : list string) out err tr :
  exec h (execPS psArgs) w = ((out, err), tr, w') ->
  (err = None <->
   exists path args stdout errBuf, In (EvCmdRun path args stdout errBuf None) tr).
Proof.
  intros H. split.
  - intros ->.
    destruct (execPS_cases h _ _ _ _ _ _ H) as [(e & _ & He & _)|(n & a & o & l & Hin)];
      [discriminate|].
    destruct (execPS_after_ldd h _ _ _ _ _ _ H _ _ _ _ Hin)
      as (psPath & psFD & trL & rest & Htr & _ & _ & _ & Hcases).
    destruct Hcases as [(front & p & fd & e & _ & _ & _ & He & _)
                       |(pid & trG & w3 & middle & Hrest & EG & _)]; [discriminate|].
    destruct (func2_cases h _ _ _ _ _ _ _ EG)
      as [(mntFD & pidFD & stdout & errBuf & rerr & HtrG & _ & Herr)
         |(front & ev & _ & _ & _ & Hne & _)]; [|now elim Hne].
    symmetry in Herr. apply runError_None in Herr. subst rerr.
    do 4 eexists. rewrite Htr, Hrest, HtrG.
    apply in_or_app. right. apply in_or_app. right. right.
    apply in_or_app. right. now left.
  - intros (path & args & stdout & errBuf & Hin).
    destruct (execPS_cmdRun h _ _ _ _ _ _ H _ _ _ _ _ Hin) as (_ & ->). reflexivity.
Qed.

Lemma execPS_success_iff_witness :
  snd (result execRun) = None <->
  exists path args stdout errBuf,
    In (EvCmdRun path args stdout errBuf None) (trace execRun).
Proof.
  exact (execPS_success_iff (machine hostFallback) 3 (snd execRun) ["time"; "comm"]
           (fst (result execRun)) (snd (result execRun)) (trace execRun) eq_refl).
Defined.

(** X9. Whenever [execPS] runs the command, the calls right before it
    are the PID read, the opens of the mount and PID namespace entries of
    that PID, [unshare(CLONE_NEWNS)], [setns] on the mount namespace and
    [setns] on the PID namespace, in this order and all successful, each
    [setns] on the descriptor its open returned; none of these calls is made
    earlier in the run. *)
Theorem execPS_joins_before_run {W : Type} (h : Host W) (w w' : W)
  (psArgs : list string) out err tr :
  exec h (execPS psArgs) w = ((out, err), tr, w') ->
  forall path args stdout errBuf rerr,
  In (EvCmdRun path args stdout errBuf rerr) tr ->
  exists front pid mntFD pidFD,
    tr = front ++ EvContainerPID pid :: nsJoined pid mntFD pidFD
         ++ [EvCmdRun path args stdout errBuf rerr] /\
    forallb (fun ev => negb (isGoroutineEvent ev)) front = true.
Proof.
  intros H path args stdout errBuf rerr Hrun.
  destruct (execPS_ldd_called h _ _ _ _ _ H _ _ _ _ _ Hrun) as (n & a & o & l & Hin).
  destruct (execPS_after_ldd h _ _ _ _ _ _ H _ _ _ _ Hin)
    as (psPath & psFD & trL & rest & Htr & _ & Hl & _ & Hcases).
  assert (HnoL : forall ev, In ev trL -> isGoroutineEvent ev = false).
  { intros ev Hev. rewrite forallb_forall in Hl. apply Hl in Hev. now destruct ev. }
  rewrite Htr in Hrun. cbn in Hrun.
  destruct Hrun as [Hrun|[Hrun|[Hrun|[Hrun|Hrun]]]]; try discriminate.
  apply in_app_or in Hrun as [Hrun|Hrun];
    [apply HnoL in Hrun; discriminate|].
  destruct Hcases as [(front & p & fd & e & _ & -> & _)
                     |(pid & trG & w3 & middle & -> & EG & _)]; [destruct Hrun|].
  destruct Hrun as [Hrun|Hrun]; [discriminate|].
  destruct (func2_cases h _ _ _ _ _ _ _ EG)
    as [(mntFD & pidFD & so & eb & re & HtrG & _ & _)
       |(front & ev & _ & _ & _ & _ & _ & Hno)].
  - rewrite HtrG in Hrun. apply in_app_or in Hrun as [Hrun|[Hrun|[]]].
    + unfold nsJoined in Hrun. cbn in Hrun. intuition discriminate.
    + rewrite Hrun in HtrG.
      eexists (_ :: _ :: _ :: _ :: trL), pid, mntFD, pidFD.
      split.
      * rewrite Htr, HtrG. reflexivity.
      * cbn [forallb isGoroutineEvent negb andb].
        rewrite forallb_forall. intros ev Hev. now rewrite (HnoL ev Hev).
  - rewrite forallb_forall in Hno. apply Hno in Hrun. discriminate.
Qed.

Lemma execPS_joins_before_run_witness :
  exists front pid mntFD pidFD,
    trace execRun
    = front ++ EvContainerPID pid :: nsJoined pid mntFD pidFD ++ [execRunCmd] /\
    forallb (fun ev => negb (isGoroutineEvent ev)) front = true.
Proof.
  refine (execPS_joins_before_run (machine hostFallback) 3 (snd execRun) ["time"; "comm"]
            (fst (result execRun)) (snd (result execRun)) (trace execRun) eq_refl
            "/proc/self/fd/8" dynamicArgs psOutput EmptyString None _).
  vm_compute. auto 30.
Defined.

(** X10. When a namespace step fails in a run of [execPS], that step
    is the last call, the command is not run, no line is returned, and the
    error is the step's: as it is for the two opens, wrapped in "unshare
    NEWNS", "setns NEWNS" or "setns NEWPID" for the others. *)
Theorem execPS_namespace_failure {W : Type} (h : Host W) (w w' : W)
  (psArgs : list string) out err tr :
  exec h (execPS psArgs) w = ((out, err), tr, w') ->
  nsFailed tr = true ->
  out = [] /\
  (exists front ev, tr = front ++ [ev] /\ err = nsStepError ev /\ err <> None) /\
  forallb (fun ev => negb (isCmdRun ev)) tr = true.
Proof.
  intros H Hns.
  destruct (execPS_cases h _ _ _ _ _ _ H)
    as [(e & _ & _ & [->|[(p & ->)|(p & fd & ->)]])|(n & a & o & l & Hin)];
    try discriminate.
  destruct (execPS_after_ldd h _ _ _ _ _ _ H _ _ _ _ Hin)
    as (psPath & psFD & trL & rest & Htr & _ & Hl & _ & Hcases).
  assert (HnsL : nsFailed trL = false) by now apply nsFailed_opens.
  assert (HrunL : forallb (fun ev => negb (isCmdRun ev)) trL = true).
  { rewrite forallb_forall in *. intros ev Hev. apply Hl in Hev. now destruct ev. }
  rewrite Htr in Hns. cbn [app] in Hns.
  change (nsFailed (?a :: ?b :: ?c :: ?d :: ?l)) with (nsFailed l) in Hns.
  rewrite nsFailed_app, HnsL in Hns. cbn [orb] in Hns.
  destruct Hcases as [(front & p & fd & e & _ & -> & _)
                     |(pid & trG & w3 & middle & -> & EG & _)]; [discriminate|].
  change (nsFailed (EvContainerPID pid :: trG)) with (nsFailed trG) in Hns.
  destruct (func2_cases h _ _ _ _ _ _ _ EG)
    as [(mntFD & pidFD & so & eb & re & HtrG & _ & _)
       |(front & ev & HtrG & Hout & Herr & Hne & _ & Hno)].
  - rewrite HtrG in Hns. discriminate.
  - split; [exact Hout|]. split.
    + eexists (_ :: _ :: _ :: _ :: trL ++ EvContainerPID pid :: front), ev.
      split; [|split; assumption].
      rewrite Htr, HtrG. cbn [app]. rewrite <- !List.app_assoc. reflexivity.
    + rewrite Htr. cbn [app forallb isCmdRun negb andb].
      rewrite forallb_app, HrunL. cbn [forallb isCmdRun negb andb]. exact Hno.
Qed.

Lemma execPS_namespace_failure_witness :
  fst (result noUnshareRun) = [] /\
  (exists front ev,
     trace noUnshareRun = front ++ [ev] /\
     snd (result noUnshareRun) = nsStepError ev /\ snd (result noUnshareRun) <> None) /\
  forallb (fun ev => negb (isCmdRun ev)) (trace noUnshareRun) = true.
Proof.
  refine (execPS_namespace_failure (machineNoUnshare hostFallback) 3 (snd noUnshareRun)
            ["time"; "comm"] (fst (result noUnshareRun)) (snd (result noUnshareRun))
            (trace noUnshareRun) eq_refl _).
  reflexivity.
Defined.

Lemma countEvents_opens p l :
  (forall ev, isUnixOpen ev = true -> p ev = false) ->
  forallb isUnixOpen l = true -> countEvents p l = 0%nat.
Proof.
  intros Hp Hl. apply countEvents_none.
  rewrite forallb_forall in *. intros ev Hev. now rewrite (Hp ev (Hl ev Hev)).
Qed.

(** [execPS] asks [ldd] at most once, runs the command at most once and never
    calls the structured provider. *)
Lemma execPS_counts {W : Type} (h : Host W) (w w' : W)
  (psArgs : list string) out err tr :
  exec h (execPS psArgs) w = ((out, err), tr, w') ->
  countEvents isProviderEvent tr = 0%nat /\
  (countEvents isLddEvent tr <= 1)%nat /\
  (countEvents isCmdRun tr <= 1)%nat.
Proof.
  intros H.
  destruct (execPS_cases h _ _ _ _ _ _ H)
    as [(e & _ & _ & [->|[(p & ->)|(p & fd & ->)]])|(n & a & o & l & Hin)];
    try (cbn; lia).
  destruct (execPS_after_ldd h _ _ _ _ _ _ H _ _ _ _ Hin)
    as (psPath & psFD & trL & rest & -> & _ & Hl & _ & Hcases).
  assert (HL : forall p, (forall ev, isUnixOpen ev = true -> p ev = false) ->
                         countEvents p trL = 0%nat)
    by (intros p Hp; now apply countEvents_opens).
  assert (Hrest : countEvents isProviderEvent rest = 0%nat /\
                  countEvents isLddEvent rest = 0%nat /\
                  (countEvents isCmdRun rest <= 1)%nat).
  { destruct Hcases as [(front & p & fd & e & _ & -> & _)
                       |(pid & trG & w3 & middle & -> & EG & _)]; [cbn; lia|].
    destruct (func2_cases h _ _ _ _ _ _ _ EG)
      as [(mntFD & pidFD & so & eb & re & -> & _ & _)
         |(front & ev & _ & _ & _ & _ & _ & Hno)]; [cbn; lia|].
    destruct (func2_run h _ _ _ _ _ _ _ EG) as (Hg & _).
    change (countEvents ?p (EvContainerPID pid :: trG)) with (countEvents p trG).
    rewrite (countEvents_none isCmdRun trG Hno).
    rewrite !countEvents_none; [lia| |];
      rewrite forallb_forall in *; intros ev0 Hev; apply Hg in Hev; now destruct ev0. }
  destruct Hrest as (Hr1 & Hr2 & Hr3).
  rewrite !countEvents_app, Hr1, Hr2.
  rewrite !HL by (intros ev Hev; now destruct ev).
  cbn. lia.
Qed.

Example noUnshareRun_error :
  snd (result noUnshareRun) = Some (WrapError "unshare NEWNS: " EPERM).
Proof. reflexivity. Qed.

(** X11. Nothing is retried: a run of [Top] calls the structured
    provider at most once, asks [ldd] at most once and runs the command at
    most once. *)
Theorem Top_no_retry {W : Type} (h : Host W) (w w' : W)
  (shlex : string -> list string * option error)
  (c : Container) (descriptors : list string) res tr :
  exec h (Top shlex c descriptors) w = (res, tr, w') ->
  (countEvents isProviderEvent tr <= 1)%nat /\
  (countEvents isLddEvent tr <= 1)%nat /\
  (countEvents isCmdRun tr <= 1)%nat.
Proof.
  intros H.
  destruct (Top_cases h _ _ _ _ _ _ _ H)
    as [(_ & -> & _)|[(_ & st & e & _ & -> & _)|[(_ & st & _ & _ & -> & _)|
        (_ & statePID & fill & rows & perr & w1 & trF & -> & Hrest)]]];
    try (cbn; lia).
  assert (HF : countEvents isProviderEvent trF = 0%nat /\
               (countEvents isLddEvent trF <= 1)%nat /\
               (countEvents isCmdRun trF <= 1)%nat).
  { destruct perr as [e|]; [|destruct Hrest as (-> & _); cbn; lia].
    destruct (errors_Is e ErrUnknownDescriptor);
      [|destruct Hrest as (-> & _); cbn; lia].
    destruct (psDescriptorsFrom shlex descriptors []) as [psD [pe|]];
      [destruct Hrest as (-> & _); cbn; lia|].
    destruct Hrest as (out & ferr & EF & _).
    exact (execPS_counts h _ _ _ _ _ _ EF). }
  destruct HF as (H1 & H2 & H3).
  rewrite !countEvents_app, H1. unfold providerEvents. cbn. lia.
Qed.

Lemma Top_no_retry_witness :
  (countEvents isProviderEvent (trace fallbackRun) <= 1)%nat /\
  (countEvents isLddEvent (trace fallbackRun) <= 1)%nat /\
  (countEvents isCmdRun (trace fallbackRun) <= 1)%nat.
Proof.
  exact (Top_no_retry (machine hostFallback) 3 _ Shlex.Split ctr quotedDescriptors _ _
           (run_eta fallbackRun)).
Defined.

Lemma last_default_or_in {A : Type} (l : list A) (d : A) :
  last l d = d \/ In (last l d) l.
Proof.
  induction l as [|a l IH]; [now left|].
  right. destruct l as [|b l]; [now left|].
  change (last (a :: b :: l) d) with (last (b :: l) d).
  destruct IH as [E|Hin]; [|now right].
  right. destruct (exists_last (l := b :: l)) as (l' & x & E'); [discriminate|].
  rewrite E'. rewrite last_last. apply in_or_app. right. now left.
Qed.

(** The linker path of a loop trace is empty or the alias of a linker that
    was opened. *)
Lemma linkerPathOf_alias (tr : list event) :
  linkerPathOf tr = EmptyString \/
  exists path perm fd,
    In (EvUnixOpen path (Z.lor O_PATH O_CLOEXEC) perm fd None) tr /\
    linkerPathOf tr = fdPath fd.
Proof.
  unfold linkerPathOf.
  destruct (last_default_or_in (map fdPath (okFDs (linkerOpens tr))) EmptyString)
    as [E|Hin]; [now left|].
  right. apply in_map_iff in Hin as (fd & Hfd & Hin).
  apply okFDs_in in Hin as (path & Hin).
  apply opensWith_in in Hin as (perm & Hin).
  exists path, perm, fd. now split.
Qed.

(** X12. When [ldd] succeeded and the command is run, the linkers
    opened are the first fields of the two-field lines with an absolute first
    field, in order, and every one of these opens succeeded.  The program
    run is the alias of the last of them; when the output has no such line
    the program path is empty. *)
Theorem execPS_linker_choice {W : Type} (h : Host W) (w w' : W)
  (psArgs : list string) out err tr :
  exec h (execPS psArgs) w = ((out, err), tr, w') ->
  forall name arg output path args stdout errBuf rerr,
  In (EvCommandOutput name arg output None) tr ->
  In (EvCmdRun path args stdout errBuf rerr) tr ->
  map openPath (linkerOpens (afterLdd tr)) = reportedLinkers (Split output LF) /\
  openErrors (linkerOpens (afterLdd tr)) = [] /\
  (reportedLinkers (Split output LF) = [] -> path = EmptyString) /\
  (forall before linker,
     reportedLinkers (Split output LF) = before ++ [linker] ->
     exists perm fd,
       In (EvUnixOpen linker (Z.lor O_PATH O_CLOEXEC) perm fd None) tr /\
       path = fdPath fd).
Proof.
  intros H name arg output path args stdout errBuf rerr Hldd Hrun.
  destruct (execPS_after_ldd h _ _ _ _ _ _ H _ _ _ _ Hldd)
    as (psPath & psFD & trL & rest & Htr & Hafter & Hl & _ & Hcases).
  assert (HnoL : forall ev, In ev trL -> isCmdRun ev = false).
  { intros ev Hev. rewrite forallb_forall in Hl. apply Hl in Hev. now destruct ev. }
  assert (HrunR : In (EvCmdRun path args stdout errBuf rerr) rest).
  { rewrite Htr in Hrun. cbn in Hrun.
    destruct Hrun as [Hrun|[Hrun|[Hrun|[Hrun|Hrun]]]]; try discriminate.
    apply in_app_or in Hrun as [Hrun|Hrun]; [apply HnoL in Hrun; discriminate|].
    exact Hrun. }
  destruct Hcases as [(front & p & fd & e & _ & -> & _)
                     |(pid & trG & w3 & middle & -> & EG & -> & Hnone & Hlinkers)];
    [destruct HrunR|].
  destruct HrunR as [HrunR|HrunR]; [discriminate|].
  destruct (func2_run h _ _ _ _ _ _ _ EG) as (Hg & HrunG & _).
  apply HrunG in HrunR as (Hpath & _). cbn in Hpath.
  assert (Hopens : linkerOpens (afterLdd tr) = linkerOpens trL).
  { rewrite Hafter. unfold linkerOpens. rewrite opensWith_app.
    rewrite (opensWith_no_open _ (EvContainerPID pid :: trG)).
    - apply List.app_nil_r.
    - cbn [forallb isUnixOpen negb andb]. now apply goroutine_no_open. }
  rewrite Hopens.
  split; [exact Hlinkers|]. split; [exact Hnone|]. split.
  - intros Hnil. rewrite Hnil in Hlinkers.
    apply map_eq_nil in Hlinkers. subst path. unfold linkerPathOf.
    now rewrite Hlinkers.
  - intros before linker Hlast. rewrite Hlast in Hlinkers.
    destruct (exists_last (l := linkerOpens trL)) as (opens & [[lp lfd] lerr] & Ho).
    { intros E. rewrite E in Hlinkers. destruct before; discriminate. }
    rewrite Ho in Hlinkers, Hnone. rewrite map_app in Hlinkers. cbn in Hlinkers.
    apply app_inj_tail in Hlinkers as (_ & <-).
    unfold openErrors in Hnone. rewrite flat_map_app in Hnone.
    apply app_eq_nil in Hnone as (Hn1 & Hn2). cbn in Hn2.
    destruct lerr; [discriminate|].
    assert (Hin : In (lp, lfd, None) (linkerOpens trL))
      by (rewrite Ho; apply in_or_app; right; now left).
    apply opensWith_in in Hin as (perm & Hin).
    exists perm, lfd. split.
    + rewrite Htr. apply in_or_app. right. apply in_or_app. left. exact Hin.
    + subst path. unfold linkerPathOf. rewrite Ho.
      unfold okFDs. rewrite flat_map_app, map_app. cbn. apply last_last.
Qed.

Lemma execPS_linker_choice_witness :
  map openPath (linkerOpens (afterLdd (trace execRun)))
  = reportedLinkers (Split lddOutput LF) /\
  openErrors (linkerOpens (afterLdd (trace execRun))) = [] /\
  exists perm fd,
    In (EvUnixOpen "/lib64/ld-linux-x86-64.so.2" (Z.lor O_PATH O_CLOEXEC) perm fd None)
       (trace execRun) /\
    "/proc/self/fd/8" = fdPath fd.
Proof.
  destruct (execPS_linker_choice (machine hostFallback) 3 (snd execRun) ["time"; "comm"]
              (fst (result execRun)) (snd (result execRun)) (trace execRun) eq_refl
              "ldd" ["/proc/self/fd/5"] lddOutput "/proc/self/fd/8" dynamicArgs psOutput
              EmptyString None) as (Hpaths & Hok & _ & Hlast).
  - vm_compute. auto 30.
  - vm_compute. auto 30.
  - split; [exact Hpaths|]. split; [exact Hok|].
    apply (Hlast []). reflexivity.
Defined.

(** X13. In every command [execPS] runs, [argv[0]] is [ps] and the
    caller's tokens come last, unchanged.  Either the program is the alias of
    the ps descriptor and there is no other argument, or the arguments before
    the tokens are [--argv0 ps --preload], aliases of libraries opened in
    this run, and the alias of ps, and the program is empty or the alias of a
    linker opened in this run. *)
Theorem execPS_passes_host_aliases {W : Type} (h : Host W) (w w' : W)
  (psArgs : list string) out err tr :
  exec h (execPS psArgs) w = ((out, err), tr, w') ->
  forall path args stdout errBuf rerr,
  In (EvCmdRun path args stdout errBuf rerr) tr ->
  exists psPath psFD,
    In (EvUnixOpen psPath O_PATH 0 psFD None) tr /\
    hd EmptyString args = "ps" /\
    ((path = fdPath psFD /\ tl args = psArgs)
     \/
     (exists fds,
        tl args = ["--argv0"; "ps"; "--preload"; Join (map fdPath fds) " ";
                   fdPath psFD] ++ psArgs /\
        (forall fd, In fd fds ->
           exists lib perm, In (EvUnixOpen lib O_PATH perm fd None) tr) /\
        (path = EmptyString \/
         exists linker perm fd,
           In (EvUnixOpen linker (Z.lor O_PATH O_CLOEXEC) perm fd None) tr /\
           path = fdPath fd))).
Proof.
  intros H path args stdout errBuf rerr Hrun.
  destruct (execPS_ldd_called h _ _ _ _ _ H _ _ _ _ _ Hrun) as (n & a & o & l & Hin).
  destruct (execPS_after_ldd h _ _ _ _ _ _ H _ _ _ _ Hin)
    as (psPath & psFD & trL & rest & Htr & _ & Hl & _ & Hcases).
  assert (HnoL : forall ev, In ev trL -> isCmdRun ev = false).
  { intros ev Hev. rewrite forallb_forall in Hl. apply Hl in Hev. now destruct ev. }
  assert (HrunR : In (EvCmdRun path args stdout errBuf rerr) rest).
  { rewrite Htr in Hrun. cbn in Hrun.
    destruct Hrun as [Hrun|[Hrun|[Hrun|[Hrun|Hrun]]]]; try discriminate.
    apply in_app_or in Hrun as [Hrun|Hrun]; [apply HnoL in Hrun; discriminate|].
    exact Hrun. }
  assert (HinL : forall ev, In ev trL -> In ev tr).
  { intros ev Hev. rewrite Htr. apply in_or_app. right. apply in_or_app. now left. }
  destruct Hcases as [(front & p & fd & e & _ & -> & _)
                     |(pid & trG & w3 & middle & -> & EG & Hmiddle)];
    [destruct HrunR|].
  destruct HrunR as [HrunR|HrunR]; [discriminate|].
  destruct (func2_run h _ _ _ _ _ _ _ EG) as (_ & HrunG & _).
  apply HrunG in HrunR as (Hpath & Hargs & _).
  exists psPath, psFD.
  split; [rewrite Htr; cbn; auto|].
  split; [rewrite Hargs; reflexivity|].
  destruct l as [le|].
  - subst middle. left. cbn in Hpath. rewrite Hargs. auto.
  - destruct Hmiddle as (-> & _ & _). right.
    exists (okFDs (libOpens trL)).
    split; [rewrite Hargs; reflexivity|]. split.
    + intros fd Hfd. apply okFDs_in in Hfd as (lib & Hfd).
      apply opensWith_in in Hfd as (perm & Hfd). exists lib, perm. auto.
    + cbn in Hpath. subst path.
      destruct (linkerPathOf_alias trL) as [E|(linker & perm & fd & Hopen & E)];
        [now left|].
      right. exists linker, perm, fd. auto.
Qed.

Lemma execPS_passes_host_aliases_witness :
  exists psPath psFD,
    In (EvUnixOpen psPath O_PATH 0 psFD None) (trace execRun) /\
    hd EmptyString dynamicArgs = "ps" /\
    (("/proc/self/fd/8" = fdPath psFD /\ tl dynamicArgs = ["time"; "comm"])
     \/
     (exists fds,
        tl dynamicArgs = ["--argv0"; "ps"; "--preload"; Join (map fdPath fds) " ";
                          fdPath psFD] ++ ["time"; "comm"] /\
        (forall fd, In fd fds ->
           exists lib perm, In (EvUnixOpen lib O_PATH perm fd None) (trace execRun)) /\
        ("/proc/self/fd/8" = EmptyString \/
         exists linker perm fd,
           In (EvUnixOpen linker (Z.lor O_PATH O_CLOEXEC) perm fd None) (trace execRun) /\
           "/proc/self/fd/8" = fdPath fd))).
Proof.
  refine (execPS_passes_host_aliases (machine hostFallback) 3 (snd execRun)
            ["time"; "comm"] (fst (result execRun)) (snd (result execRun))
            (trace execRun) eq_refl "/proc/self/fd/8" dynamicArgs psOutput
            EmptyString None _).
  vm_compute. auto 30.
Defined.

Lemma Split_no_byte (s : string) (sep : ascii) :
  hasByte sep s = false -> Split s sep = [s].
Proof.
  induction s as [|ch rest IH]; [reflexivity|].
  cbn [hasByte Split]. intros Hb. apply orb_false_elim in Hb as [Hch Hrest].
  rewrite Hch, (IH Hrest). reflexivity.
Qed.

Lemma nonEmpty_true (s : string) : s <> EmptyString -> nonEmpty s = true.
Proof. destruct s; [intros E; now elim E|reflexivity]. Qed.

Lemma comma_tokens_clean (descriptors : list string) (token : string) :
  In token (psgoDescriptorsOf descriptors) ->
  token <> EmptyString /\ hasByte ","%char token = false /\
  exists d, In d descriptors /\ In token (Split d ","%char).
Proof.
  rewrite psgoDescriptorsOf_flat_map. intros Hin.
  apply in_flat_map in Hin as (d & Hd & Hin).
  apply filter_In in Hin as (Hin & Hne).
  split.
  - intros ->. discriminate.
  - split; [exact (Split_no_sep _ _ _ Hin)|]. exists d. auto.
Qed.

Lemma comma_tokens_plain (descriptors : list string) :
  (forall d, In d descriptors -> d <> EmptyString /\ hasByte ","%char d = false) ->
  psgoDescriptorsOf descriptors = descriptors.
Proof.
  rewrite psgoDescriptorsOf_flat_map.
  induction descriptors as [|d ds IH]; intros Hok; [reflexivity|].
  cbn [flat_map]. destruct (Hok d (or_introl eq_refl)) as (Hne & Hb).
  rewrite (Split_no_byte _ _ Hb). cbn [filter]. rewrite (nonEmpty_true _ Hne).
  cbn [app]. f_equal. apply IH. intros d' Hd'. apply Hok. now right.
Qed.

(** X14. Every token [Top] hands to the structured provider is not
    empty, holds no comma, and is a piece of one of the input descriptors. *)
Theorem psgoDescriptorsOf_clean (descriptors : list string) (token : string) :
  In token (psgoDescriptorsOf descriptors) ->
  token <> EmptyString /\ hasByte ","%char token = false /\
  exists d, In d descriptors /\ In token (Split d ","%char).
Proof. apply comma_tokens_clean. Qed.

Lemma psgoDescriptorsOf_clean_witness :
  "comm" <> EmptyString /\ hasByte ","%char "comm" = false /\
  exists d, In d ["pid,comm"; ",args,"] /\ In "comm" (Split d ","%char).
Proof.
  apply (psgoDescriptorsOf_clean ["pid,comm"; ",args,"] "comm").
  vm_compute. auto.
Defined.

(** X15. Descriptors that are not empty and hold no comma go to the
    structured provider as they are. *)
Theorem psgoDescriptorsOf_plain (descriptors : list string) :
  (forall d, In d descriptors -> d <> EmptyString /\ hasByte ","%char d = false) ->
  psgoDescriptorsOf descriptors = descriptors.
Proof. apply comma_tokens_plain. Qed.

Lemma psgoDescriptorsOf_plain_witness :
  psgoDescriptorsOf ["-o"; "pid"; "time comm"] = ["-o"; "pid"; "time comm"].
Proof.
  apply psgoDescriptorsOf_plain.
  intros d [<-|[<-|[<-|[]]]]; (split; [discriminate|reflexivity]).
Defined.

(** X16. Splitting at commas a second time changes nothing. *)
Theorem psgoDescriptorsOf_idempotent (descriptors : list string) :
  psgoDescriptorsOf (psgoDescriptorsOf descriptors) = psgoDescriptorsOf descriptors.
Proof.
  apply comma_tokens_plain. intros d Hd.
  destruct (comma_tokens_clean _ _ Hd) as (Hne & Hb & _). auto.
Qed.

Lemma Contains_empty (s : string) : Contains s EmptyString = true.
Proof. apply Contains_spec. exists EmptyString, s. reflexivity. Qed.

(** X17. With no descriptor, or the empty string as the only
    descriptor, the joined descriptors are the empty string, which every line
    contains: when the fallback runs, [Top] returns no line at all. *)
Theorem Top_fallback_empty_descriptors {W : Type} (h : Host W) (w w' : W)
  (shlex : string -> list string * option error)
  (c : Container) (descriptors : list string) res tr :
  exec h (Top shlex c descriptors) w = (res, tr, w') ->
  descriptors = [] \/ descriptors = [EmptyString] ->
  forall path args stdout errBuf rerr,
  In (EvCmdRun path args stdout errBuf rerr) tr ->
  fst res = [].
Proof.
  intros H Hd path args stdout errBuf rerr Hin.
  rewrite (Top_after_cmdRun h _ _ _ _ _ _ _ H _ _ _ _ _ Hin).
  destruct (runError rerr errBuf); [reflexivity|].
  cbn [fst]. rewrite filterPS_filter.
  assert (Hj : Join descriptors " " = EmptyString) by (destruct Hd as [-> | ->]; reflexivity).
  rewrite Hj. clear. induction stdout as [|line out IH]; [reflexivity|].
  cbn [filter]. rewrite Contains_empty. exact IH.
Qed.

Lemma Top_fallback_empty_descriptors_witness : fst (result emptyRun) = [].
Proof.
  refine (Top_fallback_empty_descriptors (machine hostFallback) 3 _ Shlex.Split ctr []
            _ _ (run_eta emptyRun) (or_introl eq_refl) "/proc/self/fd/8"
            ["ps"; "--argv0"; "ps"; "--preload"; "/proc/self/fd/6 /proc/self/fd/7";
             "/proc/self/fd/5"] psOutput EmptyString None _).
  vm_compute. auto 30.
Defined.

(** ** [artifact.go] *)

Lemma wrap64_add_l (a b : Z) : wrap64 (wrap64 a + b) = wrap64 (a + b).
Proof.
  unfold wrap64.
  replace ((a + 2 ^ 63) mod 2 ^ 64 - 2 ^ 63 + b + 2 ^ 63)
    with ((a + 2 ^ 63) mod 2 ^ 64 + b) by ring.
  replace (a + b + 2 ^ 63) with (a + 2 ^ 63 + b) by ring.
  now rewrite Zplus_mod_idemp_l.
Qed.

Lemma wrap64_in_range (z : Z) : - 2 ^ 63 <= z < 2 ^ 63 -> wrap64 z = z.
Proof.
  intros Hz. unfold wrap64. rewrite Z.mod_small; lia.
Qed.

Lemma wrap64_range (z : Z) : - 2 ^ 63 <= wrap64 z < 2 ^ 63.
Proof.
  unfold wrap64. pose proof (Z.mod_pos_bound (z + 2 ^ 63) (2 ^ 64)). lia.
Qed.

Lemma layers_fold (layers : list Libartifact.Descriptor) (s : Z) :
  wrap64 (fold_left (fun s layer => wrap64 (s + Libartifact.Size layer)) layers s)
  = wrap64 (s + sumZ (map Libartifact.Size layers)).
Proof.
  revert s. induction layers as [|layer layers IH]; intros s; cbn [fold_left map sumZ].
  - now rewrite Z.add_0_r.
  - rewrite IH, wrap64_add_l. f_equal. ring.
Qed.

Lemma layers_fold_wrapped (layers : list Libartifact.Descriptor) (s : Z) :
  wrap64 s = s ->
  wrap64 (fold_left (fun s layer => wrap64 (s + Libartifact.Size layer)) layers s)
  = fold_left (fun s layer => wrap64 (s + Libartifact.Size layer)) layers s.
Proof.
  revert s. induction layers as [|layer layers IH]; intros s Hs; cbn [fold_left].
  - exact Hs.
  - apply IH. apply wrap64_in_range, wrap64_range.
Qed.

Lemma manifests_fold (manifests : list Libartifact.OCI1) (s : Z) :
  wrap64 s = s ->
  let total :=
    fold_left (fun s artifact =>
                 fold_left (fun s layer => wrap64 (s + Libartifact.Size layer))
                           (Libartifact.Layers artifact) s) manifests s in
  wrap64 total = total /\
  total = wrap64 (s + sumZ (map Libartifact.Size
                                (flat_map Libartifact.Layers manifests))).
Proof.
  revert s. induction manifests as [|m ms IH]; intros s Hs; cbn [fold_left flat_map].
  - cbn. rewrite Z.add_0_r. auto.
  - pose proof (layers_fold_wrapped (Libartifact.Layers m) s Hs) as Hw.
    destruct (IH _ Hw) as (Ht & Hsum). split; [exact Ht|].
    rewrite Hsum, <- Hw, layers_fold, wrap64_add_l.
    f_equal. rewrite map_app.
    assert (Happ : forall l1 l2, sumZ (l1 ++ l2) = sumZ l1 + sumZ l2).
    { induction l1 as [|x l1 IH1]; intros l2; cbn [app sumZ]; [reflexivity|].
      rewrite IH1. ring. }
    rewrite Happ. ring.
Qed.

(** X18. [TotalSize] is the sum of the sizes of all layers of all
    manifests, reduced to [int64]: it is the exact sum whenever that sum is
    an [int64], whatever the partial sums were. *)
Theorem TotalSize_sum (a : Libartifact.Artifact) :
  let sizes := map Libartifact.Size
                   (flat_map Libartifact.Layers (Libartifact.Manifests a)) in
  Libartifact.TotalSize a = wrap64 (sumZ sizes) /\
  (- 2 ^ 63 <= sumZ sizes < 2 ^ 63 -> Libartifact.TotalSize a = sumZ sizes).
Proof.
  intros sizes. unfold Libartifact.TotalSize.
  destruct (manifests_fold (Libartifact.Manifests a) 0) as (_ & Hsum); [reflexivity|].
  cbn zeta in Hsum. rewrite Z.add_0_l in Hsum. fold sizes in Hsum.
  split; [exact Hsum|]. intros Hr. rewrite Hsum. now apply wrap64_in_range.
Qed.

Lemma TotalSize_sum_witness :
  Libartifact.TotalSize twoManifests = 7168.
Proof.
  apply (proj2 (TotalSize_sum twoManifests)). vm_compute. split; [discriminate|reflexivity].
Defined.

Lemma GetByName_step (AnnotatedName : string) (artifact : Libartifact.Artifact) rest name :
  Libartifact.GetByName AnnotatedName (Some artifact :: rest) name
  = if Libartifact.named AnnotatedName name artifact then Returns (Some artifact, None) else Libartifact.GetByName AnnotatedName rest name.
Proof.
  cbn [Libartifact.GetByName]. unfold Libartifact.named.
  destruct (mapGet _ AnnotatedName); reflexivity.
Qed.

Lemma GetByName_found_iff (AnnotatedName : string) (al : Libartifact.ArtifactList) name a :
  Libartifact.GetByName AnnotatedName al name = Returns (Some a, None) <->
  exists front back,
    al = map Some front ++ Some a :: back /\
    Libartifact.named AnnotatedName name a = true /\
    forall b, In b front -> Libartifact.named AnnotatedName name b = false.
Proof.
  induction al as [|[x|] al IH].
  - split; [discriminate|]. intros (front & back & E & _). destruct front; discriminate.
  - rewrite GetByName_step. destruct (Libartifact.named AnnotatedName name x) eqn:Ex.
    + split.
      * intros E. injection E as <-. exists [], al. repeat split; auto. intros b [].
      * intros (front & back & E & Ha & Hfront). destruct front as [|f front].
        -- cbn in E. injection E as -> _. reflexivity.
        -- cbn in E. injection E as -> _.
           rewrite (Hfront f (or_introl eq_refl)) in Ex. discriminate.
    + rewrite IH. split.
      * intros (front & back & -> & Ha & Hfront). exists (x :: front), back.
        repeat split; auto. intros b [<-|Hb]; auto.
      * intros (front & back & E & Ha & Hfront). destruct front as [|f front].
        -- cbn in E. injection E as ->. congruence.
        -- cbn in E. injection E as -> ->. exists front, back.
           repeat split; auto. intros b Hb. apply Hfront. now right.
  - cbn. split; [discriminate|].
    intros (front & back & E & _). destruct front; discriminate.
Qed.

Lemma GetByName_error_iff (AnnotatedName : string) (al : Libartifact.ArtifactList) name r :
  (exists e, Libartifact.GetByName AnnotatedName al name = Returns (r, Some e)) <->
  r = None /\
  Libartifact.GetByName AnnotatedName al name
  = Returns (None, Some (ErrorString ("no artifact found with name " ++ name)%string)) /\
  exists artifacts,
    al = map Some artifacts /\ forall b, In b artifacts -> Libartifact.named AnnotatedName name b = false.
Proof.
  induction al as [|[x|] al IH].
  - cbn. split.
    + intros (e & E). injection E as <- <-. repeat split. exists []. split; auto.
      intros b [].
    + intros (-> & E & _). eauto.
  - rewrite GetByName_step. destruct (Libartifact.named AnnotatedName name x) eqn:Ex.
    + split; [intros (e & E); discriminate|]. intros (_ & E & _). discriminate.
    + rewrite IH. split.
      * intros (-> & E & l & -> & Hl). repeat split; auto.
        exists (x :: l). split; [reflexivity|]. intros b [<-|Hb]; auto.
      * intros (-> & E & l & El & Hl). repeat split; auto.
        destruct l as [|y l]; [discriminate|]. cbn in El. injection El as -> ->.
        exists l. split; [reflexivity|]. intros b Hb. apply Hl. now right.
  - cbn. split; [intros (e & E); discriminate|]. intros (_ & E & _). discriminate.
Qed.

Lemma GetByName_panics_iff (AnnotatedName : string) (al : Libartifact.ArtifactList) name :
  Libartifact.GetByName AnnotatedName al name = Panics <->
  exists front back,
    al = map Some front ++ None :: back /\
    forall b, In b front -> Libartifact.named AnnotatedName name b = false.
Proof.
  induction al as [|[x|] al IH].
  - split; [discriminate|]. intros (front & back & E & _). destruct front; discriminate.
  - rewrite GetByName_step. destruct (Libartifact.named AnnotatedName name x) eqn:Ex.
    + split; [discriminate|].
      intros (front & back & E & Hfront). destruct front as [|f front]; [discriminate|].
      cbn in E. injection E as -> _.
      rewrite (Hfront f (or_introl eq_refl)) in Ex. discriminate.
    + rewrite IH. split.
      * intros (front & back & -> & Hfront). exists (x :: front), back.
        split; [reflexivity|]. intros b [<-|Hb]; auto.
      * intros (front & back & E & Hfront). destruct front as [|f front]; [discriminate|].
        cbn in E. injection E as -> ->. exists front, back.
        split; [reflexivity|]. intros b Hb. apply Hfront. now right.
  - cbn. split; [|reflexivity]. intros _. exists [], al. split; [reflexivity|].
    intros b [].
Qed.


(** X19. [GetByName] returns an artifact and no error exactly when
    that artifact is the first of the list whose name annotation is [name],
    no nil pointer standing before it. *)
Theorem GetByName_first_match (AnnotatedName : string)
  (al : Libartifact.ArtifactList) (name : string) (a : Libartifact.Artifact) :
  Libartifact.GetByName AnnotatedName al name = Returns (Some a, None) <->
  exists front back,
    al = map Some front ++ Some a :: back /\
    Libartifact.named AnnotatedName name a = true /\
    forall b, In b front -> Libartifact.named AnnotatedName name b = false.
Proof. apply GetByName_found_iff. Qed.

(** X20. [GetByName] returns an error exactly when the list holds no
    nil pointer and no artifact whose name annotation is [name]; the error
    is "no artifact found with name" followed by the name, and no artifact
    comes with it. *)
Theorem GetByName_not_found (AnnotatedName : string)
  (al : Libartifact.ArtifactList) (name : string) (r : option Libartifact.Artifact) :
  (exists e, Libartifact.GetByName AnnotatedName al name = Returns (r, Some e)) <->
  r = None /\
  Libartifact.GetByName AnnotatedName al name
  = Returns (None, Some (ErrorString ("no artifact found with name " ++ name)%string)) /\
  exists artifacts,
    al = map Some artifacts /\
    forall b, In b artifacts -> Libartifact.named AnnotatedName name b = false.
Proof. apply GetByName_error_iff. Qed.

(** X21. [GetByName] panics exactly when a nil pointer stands in the
    list before any artifact whose name annotation is [name]. *)
Theorem GetByName_nil_pointer (AnnotatedName : string)
  (al : Libartifact.ArtifactList) (name : string) :
  Libartifact.GetByName AnnotatedName al name = Panics <->
  exists front back,
    al = map Some front ++ None :: back /\
    forall b, In b front -> Libartifact.named AnnotatedName name b = false.
Proof. apply GetByName_panics_iff. Qed.

(** ** The bindings *)

Lemma quot100_class (code k : Z) :
  1 <= k -> (Z.quot code 100 =? k) = true <-> 100 * k <= code <= 100 * k + 99.
Proof.
  intros Hk. rewrite Z.eqb_eq. split.
  - intros Hq.
    assert (Hpos : 0 <= code).
    { destruct (Z.lt_ge_cases code 0) as [Hneg|]; [|assumption].
      pose proof (Z.quot_opp_l code 100 ltac:(lia)) as Ho.
      pose proof (Z.quot_pos (- code) 100 ltac:(lia) ltac:(lia)). lia. }
    rewrite Z.quot_div_nonneg in Hq by lia.
    pose proof (Z.div_mod code 100 ltac:(lia)).
    pose proof (Z.mod_pos_bound code 100 ltac:(lia)). lia.
  - intros Hr. rewrite Z.quot_div_nonneg by lia.
    symmetry. apply (Z.div_unique code 100 k (code - 100 * k)); lia.
Qed.

(** X22. The five classes of a response are the status codes 100-199,
    200-299, 300-399, 400-499 and 500-599: no class holds of any other code,
    negative ones included, since the division truncates toward zero. *)
Theorem status_classes (h : Bindings.APIResponse) :
  let code := Bindings.StatusCode h in
  (Bindings.IsInformational h = true <-> 100 <= code <= 199) /\
  (Bindings.IsSuccess h = true <-> 200 <= code <= 299) /\
  (Bindings.IsRedirection h = true <-> 300 <= code <= 399) /\
  (Bindings.IsClientError h = true <-> 400 <= code <= 499) /\
  (Bindings.IsServerError h = true <-> 500 <= code <= 599).
Proof.
  cbn zeta.
  unfold Bindings.IsInformational, Bindings.IsSuccess, Bindings.IsRedirection,
    Bindings.IsClientError, Bindings.IsServerError.
  rewrite !quot100_class by lia. lia.
Qed.

Lemma Split_app_sep (front back : string) (sep : ascii) :
  hasByte sep front = false ->
  Split (front ++ String sep back) sep = front :: Split back sep.
Proof.
  induction front as [|ch front IH]; cbn [append hasByte Split].
  - intros _. now rewrite Ascii.eqb_refl.
  - intros Hb. apply orb_false_elim in Hb as [Hch Hrest].
    rewrite Hch, (IH Hrest). reflexivity.
Qed.

Lemma Split_Join (elements : list string) (sep : ascii) :
  elements <> [] ->
  (forall e, In e elements -> hasByte sep e = false) ->
  Split (Join elements (String sep EmptyString)) sep = elements.
Proof.
  unfold Join. induction elements as [|e es IH]; intros Hne Hclean; [now elim Hne|].
  destruct es as [|e' es].
  - cbn [concat]. apply Split_no_byte. apply Hclean. now left.
  - cbn [concat]. cbn [append]. rewrite Split_app_sep by (apply Hclean; now left).
    f_equal. apply IH; [discriminate|]. intros x Hx. apply Hclean. now right.
Qed.

(** X23. [JoinURL] of at least one element, none holding a slash, is
    an absolute path that splits at its slashes into the empty string
    followed by the elements. *)
Theorem JoinURL_Split (elements : list string) :
  elements <> [] ->
  (forall e, In e elements -> hasByte "/"%char e = false) ->
  Split (Bindings.JoinURL elements) "/"%char = EmptyString :: elements /\
  IsAbs (Bindings.JoinURL elements) = true.
Proof.
  intros Hne Hclean. unfold Bindings.JoinURL. split; [|reflexivity].
  change ("/" ++ Join elements "/")%string
    with (EmptyString ++ String "/"%char (Join elements "/"))%string.
  rewrite Split_app_sep by reflexivity.
  f_equal. now apply Split_Join.
Qed.

Lemma JoinURL_Split_witness :
  Split (Bindings.JoinURL ["containers"; "c0ffee"; "top"]) "/"%char
  = [EmptyString; "containers"; "c0ffee"; "top"] /\
  IsAbs (Bindings.JoinURL ["containers"; "c0ffee"; "top"]) = true.
Proof.
  apply JoinURL_Split; [discriminate|].
  intros e [<-|[<-|[<-|[]]]]; reflexivity.
Defined.

(** ** The options of a secret *)

